(** * Verification of the tree-packing tool (scripts/pack_from_tree.py)

    The development is a shallow embedding of the packing tool: the path
    utilities, the metadata extractor, the two crawlers, the selection
    engine and the materializer.  The file system the tool reads and
    writes is a finite map from paths to entries; the tool's functions
    become functions over that map, and the ones that can raise return
    [option].

    Strings are Rocq strings read as sequences of code points below 256.
    Time stamps are integers (only their order is ever used). *)

From Stdlib Require Import ZArith Ascii String List Permutation Sorted OrdersEx Lia.
From stdpp Require Import base option list strings gmap fin_maps.

#[local] Set Warnings "-register-all".

Local Open Scope string_scope.
Local Open Scope list_scope.
Local Open Scope Z_scope.

(** ** Characters and strings as Python sees them *)

Module PyStr.

(** [str.isspace] on one code point below 256. *)
Definition is_space (c : ascii) : bool :=
  let n := nat_of_ascii c in
  ((9 <=? n) && (n <=? 13) || (28 <=? n) && (n <=? 32)
   || (n =? 133) || (n =? 160))%nat.

(** Value of a decimal digit, [None] for every other character. *)
Definition digit_val (c : ascii) : option Z :=
  let n := nat_of_ascii c in
  if ((48 <=? n) && (n <=? 57))%nat then Some (Z.of_nat (n - 48)) else None.

Definition is_digit (c : ascii) : bool :=
  match digit_val c with Some _ => true | None => false end.

Definition chars (s : string) : list ascii := list_ascii_of_string s.
Definition of_chars (l : list ascii) : string := string_of_list_ascii l.

Fixpoint lstrip (l : list ascii) : list ascii :=
  match l with
  | c :: l' => if is_space c then lstrip l' else l
  | [] => []
  end.

Definition rstrip (l : list ascii) : list ascii := rev (lstrip (rev l)).

(** [s.strip()] *)
Definition strip (s : string) : string := of_chars (rstrip (lstrip (chars s))).

(** [s.endswith(suffix)] *)
Definition ends_with (suffix s : string) : bool :=
  let n := String.length s in
  let k := String.length suffix in
  ((k <=? n)%nat && String.eqb (substring (n - k) k s) suffix).

(** Code-point order on strings, the order of [<] on [str]. *)
Definition ltb (a b : string) : bool :=
  match String.compare a b with Lt => true | _ => false end.

End PyStr.

(** ** [int(s)] on a string

    The scanner of the interpreter: surrounding white space is skipped, a
    single sign is accepted, then decimal digits in which one underscore
    may stand between two digits.  Anything else raises [ValueError]
    ([None] here).  Directory names are bounded by the file system's name
    length, far below the interpreter's cap on the number of digits, which
    is therefore left out. *)

Module PyInt.
Import PyStr.

(** The white space the scanner skips.  The interpreter first turns the
    white space above code point 127 into blanks (133 and 160, of the
    code points below 256) and then skips what C's [isspace] accepts: 9
    to 13 and 32.  The separators 28 to 31, which [str.strip] removes,
    are not skipped. *)
Definition is_blank (c : ascii) : bool :=
  let n := nat_of_ascii c in
  ((9 <=? n) && (n <=? 13) || (n =? 32) || (n =? 133) || (n =? 160))%nat.

Fixpoint skip_blank (l : list ascii) : list ascii :=
  match l with
  | c :: l' => if is_blank c then skip_blank l' else l
  | [] => []
  end.

(** Digits after the first one; returns the value and what follows. *)
Fixpoint scan_digits (acc : Z) (l : list ascii) : option (Z * list ascii) :=
  match l with
  | [] => Some (acc, [])
  | c :: l' =>
      match digit_val c with
      | Some d => scan_digits (acc * 10 + d) l'
      | None =>
          if Ascii.eqb c "_"%char then
            match l' with
            | c2 :: l'' =>
                match digit_val c2 with
                | Some d => scan_digits (acc * 10 + d) l''
                | None => None
                end
            | [] => None
            end
          else Some (acc, l)
      end
  end.

Definition scan_unsigned (l : list ascii) : option (Z * list ascii) :=
  match l with
  | c :: l' =>
      match digit_val c with
      | Some d => scan_digits d l'
      | None => None
      end
  | [] => None
  end.

Definition scan_signed (l : list ascii) : option (Z * list ascii) :=
  match l with
  | c :: l' =>
      if Ascii.eqb c "-"%char then
        match scan_unsigned l' with
        | Some (n, r) => Some (- n, r)
        | None => None
        end
      else if Ascii.eqb c "+"%char then scan_unsigned l'
      else scan_unsigned l
  | [] => None
  end.

Definition int_of_chars (l : list ascii) : option Z :=
  match scan_signed (skip_blank l) with
  | Some (n, r) => match skip_blank r with [] => Some n | _ :: _ => None end
  | None => None
  end.

(** [int(s)], with [None] for [ValueError]. *)
Definition int (s : string) : option Z := int_of_chars (chars s).

End PyInt.

(** [parse_int]: [int(s)], every exception turned into [None]. *)
Definition parse_int (s : string) : option Z := PyInt.int s.


(** ** Parsed JSON documents and the metadata extractor *)

(** A JSON value as [json.load] returns it.  Numbers keep their literal
    text: the tool never computes with them.  An object is the list of the
    dictionary's items. *)
Inductive json : Type :=
  | JNull
  | JBool (b : bool)
  | JNum (literal : string)
  | JStr (s : string)
  | JList (items : list json)
  | JObj (fields : list (string * json)).

(** [d.get(k)] *)
Fixpoint dict_get {A} (k : string) (d : list (string * A)) : option A :=
  match d with
  | [] => None
  | (k', v) :: d' => if String.eqb k k' then Some v else dict_get k d'
  end.

(** [isinstance(v, str) and v.strip()], giving the stripped text. *)
Definition stripped_text (v : option json) : option string :=
  match v with
  | Some (JStr s) =>
      let t := PyStr.strip s in
      if String.eqb t "" then None else Some t
  | _ => None
  end.

(** The loop of [extract_prompt] over a list. *)
Fixpoint first_value (items : list json) : string :=
  match items with
  | [] => ""
  | JObj fields :: rest =>
      match stripped_text (dict_get "value" fields) with
      | Some t => t
      | None => first_value rest
      end
  | _ :: rest => first_value rest
  end.

Definition prompt_keys : list string :=
  ["prompt"; "instruction"; "input"; "question"; "caption"; "text"].

Definition container_keys : list string :=
  ["data"; "meta"; "inputs"; "message"; "messages"; "payload"].

(** The first loop over a dictionary: the first key holding a text that
    is not blank. *)
Fixpoint first_text (keys : list string) (fields : list (string * json))
  : option string :=
  match keys with
  | [] => None
  | k :: keys' =>
      match stripped_text (dict_get k fields) with
      | Some t => Some t
      | None => first_text keys' fields
      end
  end.

Definition is_container (v : json) : bool :=
  match v with JList _ | JObj _ => true | _ => false end.

(** The second loop over a dictionary, given the results [sub] of the
    recursive calls on the fields that are lists or dictionaries. *)
Fixpoint first_nested (keys : list string) (sub : list (string * option string))
  : string :=
  match keys with
  | [] => ""
  | k :: keys' =>
      match dict_get k sub with
      | Some (Some p) => if String.eqb p "" then first_nested keys' sub else p
      | _ => first_nested keys' sub
      end
  end.

(** [extract_prompt].  The recursive calls are laid out over all the
    fields ([sub]) so that the recursion is structural; the loop only
    reads the one stored under the key it is looking at, and only when
    that value is a list or a dictionary. *)
Fixpoint extract_prompt (obj : json) : string :=
  match obj with
  | JList items => first_value items
  | JObj fields =>
      match first_text prompt_keys fields with
      | Some t => t
      | None =>
          first_nested container_keys
            ((fix calls (fs : list (string * json)) : list (string * option string) :=
                match fs with
                | [] => []
                | (k, v) :: fs' =>
                    (k, if is_container v then Some (extract_prompt v) else None)
                      :: calls fs'
                end) fields)
      end
  | _ => ""
  end.

(** ** The file system *)

(** A path is the list of its components. *)
Definition path : Type := list string.

(** What [stat] and [open] tell about one path: its kind, its time stamp
    and size, and, for a regular file, what [json.load] makes of its
    bytes ([None] when it raises under both encodings). *)
Record entry : Type := Entry {
  is_dir : bool;
  st_mtime : Z;
  st_size : Z;
  content : option json
}.

(** The state of the file system. *)
Abbreviation fsys := (gmap path entry).

(** What the run takes from its surroundings: the clock, the size the
    system gives a new directory, and the length of a serialized
    document. *)
Record os_env : Type := OsEnv {
  now : Z;
  stamp : string;        (* [datetime.now().strftime(...)] *)
  dir_size : Z;
  dumps_size : json -> Z
}.

Module Path.

(** [p / name] *)
Definition join (p : path) (name : string) : path := p ++ [name].

(** [p.name] *)
Definition name (p : path) : string := List.last p "".

(** [p.parent] *)
Definition parent (p : path) : path := removelast p.

Definition is_child_of (root p : path) : bool :=
  match p with
  | [] => false
  | _ => bool_decide (parent p = root)
  end.

(** [root] is a proper ancestor of [p]. *)
Definition is_under (root p : path) : bool :=
  bool_decide (root `prefix_of` p) && negb (bool_decide (p = root)).

Fixpoint rfind_dot (i : nat) (l : list ascii) (found : option nat) : option nat :=
  match l with
  | [] => found
  | c :: l' => rfind_dot (S i) l' (if Ascii.eqb c "."%char then Some i else found)
  end.

(** The index at which the suffix of a name starts, if it has one. *)
Definition suffix_start (nm : string) : option nat :=
  match rfind_dot 0 (PyStr.chars nm) None with
  | Some i => if ((0 <? i) && (i <? String.length nm - 1))%nat then Some i else None
  | None => None
  end.

(** [p.stem] *)
Definition stem (p : path) : string :=
  match suffix_start (name p) with
  | Some i => substring 0 i (name p)
  | None => name p
  end.

(** [p.with_suffix(suffix)], for a path with a name. *)
Definition with_suffix (p : path) (suffix : string) : path :=
  join (parent p) (stem p +:+ suffix).

(** [p] and the paths above it, from the root down to [p]. *)
Fixpoint prefixes (p : path) : list path :=
  match p with
  | [] => [[]]
  | c :: p' => [] :: map (cons c) (prefixes p')
  end.

(** [str(p)] for a relative path; the empty one is written as a dot. *)
Definition to_string (p : path) : string :=
  match p with
  | [] => "."
  | _ :: _ => String.concat "/" p
  end.

(** [p.relative_to(root)]; raises when [root] is not a prefix. *)
Fixpoint relative_to (p root : path) : option path :=
  match root, p with
  | [], _ => Some p
  | r :: root', c :: p' => if String.eqb r c then relative_to p' root' else None
  | _ :: _, [] => None
  end.

End Path.

Module FS.

Definition exists_ (fs : fsys) (p : path) : bool :=
  match fs !! p with Some _ => true | None => false end.

Definition isdir (fs : fsys) (p : path) : bool :=
  match fs !! p with Some e => is_dir e | None => false end.

Definition isfile (fs : fsys) (p : path) : bool :=
  match fs !! p with Some e => negb (is_dir e) | None => false end.

(** [p.stat()]; [None] when it raises. *)
Definition stat (fs : fsys) (p : path) : option entry := fs !! p.

(** [p.iterdir()]; raises unless [p] is a directory. *)
Definition iterdir (fs : fsys) (p : path) : option (list path) :=
  if isdir fs p
  then Some (List.filter (Path.is_child_of p) (map fst (map_to_list fs)))
  else None.

(** [p.glob("*" + suffix)]: nothing when [p] is not a directory. *)
Definition glob_suffix (fs : fsys) (p : path) (suffix : string) : list path :=
  match iterdir fs p with
  | Some l => List.filter (fun q => PyStr.ends_with suffix (Path.name q)) l
  | None => []
  end.

(** The regular files below [root], as [root.rglob("*")] with
    [is_file] finds them. *)
Definition files_under (fs : fsys) (root : path) : gmap path entry :=
  filter (fun '(p, e) => Path.is_under root p = true /\ is_dir e = false) fs.

(** The directory [d] receives or loses an entry: the system sets its
    time stamp. *)
Definition touch (env : os_env) (fs : fsys) (d : path) : fsys :=
  match fs !! d with
  | Some e =>
      if is_dir e then <[d := Entry true (now env) (st_size e) (content e)]> fs
      else fs
  | None => fs
  end.

(** The entry [e] is written at [p]: what was there is replaced, and when
    nothing was there the new entry shows in the directory above. *)
Definition put (env : os_env) (fs : fsys) (p : path) (e : entry) : fsys :=
  <[p := e]> (if exists_ fs p then fs else touch env fs (Path.parent p)).

(** [p.mkdir(parents=True, exist_ok=True)], on the prefixes of [p] from
    the shortest to [p] itself. *)
Fixpoint make_dirs (env : os_env) (fs : fsys) (prefixes : list path) : option fsys :=
  match prefixes with
  | [] => Some fs
  | q :: rest =>
      match fs !! q with
      | Some e => if is_dir e then make_dirs env fs rest else None
      | None => make_dirs env (put env fs q (Entry true (now env) (dir_size env) None)) rest
      end
  end.

Definition mkdir_p (env : os_env) (fs : fsys) (p : path) : option fsys :=
  make_dirs env fs (Path.prefixes p).

(** [shutil.copy2(src, dst)]: the copy takes the source's time stamp. *)
Definition copy2 (env : os_env) (fs : fsys) (src dst : path) : option fsys :=
  match fs !! src with
  | Some e =>
      if is_dir e then None
      else
        let target := if isdir fs dst then Path.join dst (Path.name src) else dst in
        if bool_decide (target = src) then None
        else if isdir fs target then None
        else if isdir fs (Path.parent target)
        then Some (put env fs target (Entry false (st_mtime e) (st_size e) (content e)))
        else None
  | None => None
  end.

(** [p.write_text(json.dumps(doc))] *)
Definition write_json (env : os_env) (fs : fsys) (p : path) (doc : json) : option fsys :=
  if isdir fs p then None
  else if isdir fs (Path.parent p)
  then Some (put env fs p (Entry false (now env) (dumps_size env doc) (Some doc)))
  else None.

End FS.

(** ** [list.sort] and slices *)

Section PySort.
Context {A K : Type} (key : A -> K) (lt : K -> K -> bool).

(** [y], met while [x] travels to its place, stays in front of [x]. *)
Definition stays_before (reverse : bool) (y x : A) : bool :=
  if reverse then lt (key x) (key y) else lt (key y) (key x).

Fixpoint insert_sorted (reverse : bool) (x : A) (l : list A) : list A :=
  match l with
  | [] => [x]
  | y :: l' =>
      if stays_before reverse y x then y :: insert_sorted reverse x l'
      else x :: y :: l'
  end.

(** [l.sort(key=key, reverse=reverse)]: the stable sort, which leaves
    elements of equal key in the order they had, also when reversed. *)
Definition py_sort (reverse : bool) (l : list A) : list A :=
  foldr (insert_sorted reverse) [] l.
End PySort.

(** [l[:k]], also for a negative [k]. *)
Definition slice_to {A} (k : Z) (l : list A) : list A :=
  if 0 <=? k then firstn (Z.to_nat k) l
  else firstn (Z.to_nat (Z.of_nat (length l) + k)) l.

(** Order of [<] on tuples and on paths: the first component that differs
    decides. *)
Fixpoint path_ltb (p q : path) : bool :=
  match p, q with
  | [], [] => false
  | [], _ :: _ => true
  | _ :: _, [] => false
  | a :: p', b :: q' =>
      if PyStr.ltb a b then true
      else if String.eqb a b then path_ltb p' q' else false
  end.

(** ** Path utilities of the tool *)

(** [first_jpg] *)
Definition first_jpg (fs : fsys) (folder : path) : option path :=
  match py_sort (fun p => p) path_ltb false (FS.glob_suffix fs folder ".jpg") with
  | f :: _ => Some f
  | [] => None
  end.

(** The sort key [int(p.name)]; it is only taken on names [parse_int]
    accepts. *)
Definition int_name (p : path) : Z := default 0 (PyInt.int (Path.name p)).

(** The sort key [p.stat().st_mtime], taken on entries just listed. *)
Definition mtime_of (fs : fsys) (p : path) : Z :=
  match fs !! p with Some e => st_mtime e | None => 0 end.

Definition is_numeric (p : path) : bool :=
  match parse_int (Path.name p) with Some _ => true | None => false end.

(** [iter_dirs_numeric_sorted] *)
Definition iter_dirs_numeric_sorted (fs : fsys) (root : path) (reverse : bool)
  : option (list path) :=
  entries ← FS.iterdir fs root;
  let dirs := List.filter (FS.isdir fs) entries in
  let numeric := List.filter is_numeric dirs in
  let nonnum := List.filter (fun p => negb (is_numeric p)) dirs in
  Some (py_sort int_name Z.ltb reverse numeric
        ++ py_sort (mtime_of fs) Z.ltb reverse nonnum).

(** [child_dirs_numeric_sorted] *)
Definition child_dirs_numeric_sorted (fs : fsys) (root : path) (reverse : bool)
  : option (list path) :=
  iter_dirs_numeric_sorted fs root reverse.

(** [count_files] *)
Definition count_files (fs : fsys) (root : path) : Z :=
  Z.of_nat (size (FS.files_under fs root)).

Fixpoint index_of (x : string) (l : list string) : option nat :=
  match l with
  | [] => None
  | y :: l' => if String.eqb x y then Some 0%nat else S <$> index_of x l'
  end.

(** [infer_model] *)
Definition infer_model (p : path) (fallback : string) : string :=
  let other := if String.eqb fallback "" then "unknown-model" else fallback in
  match index_of "UnifyModelEval" p with
  | Some i => match p !! S i with Some m => m | None => other end
  | None => other
  end.

(** ** Candidates *)

Record candidate : Type := Candidate {
  src : path;
  dst_dir : path;
  benchmark : string;
  iter_dir : string;
  sub_dir : string;
  model : string;
  prompt : string;
  mtime : Z;
  iter_num : Z;
  sub_num : Z;
  id : string
}.

(** [read_json(js) if js.exists() else {}] *)
Definition read_meta (fs : fsys) (js : path) : json :=
  match fs !! js with
  | Some e => default (JObj []) (content e)
  | None => JObj []
  end.

(** [make_candidate]; [jpg.stat()] raises when the file is gone. *)
Definition make_candidate (fs : fsys) (jpg dst : path) (bench : string)
    (iter sub : path) (mdl prm : string) : option candidate :=
  e ← FS.stat fs jpg;
  Some {| src := jpg;
          dst_dir := dst;
          benchmark := bench;
          iter_dir := Path.name iter;
          sub_dir := Path.name sub;
          model := mdl;
          prompt := prm;
          mtime := st_mtime e;
          iter_num := default (-1) (parse_int (Path.name iter));
          sub_num := default (-1) (parse_int (Path.name sub));
          id := bench +:+ "-" +:+ Path.name iter +:+ "-" +:+ Path.name sub
                  +:+ "-" +:+ Path.stem jpg |}.

(** The part both crawlers share once the leaf directory is known: zero
    or one candidate. *)
Definition leaf_candidate (fs : fsys) (images_out : path) (mdl bench : string)
    (iter sub leaf : path) : option (list candidate) :=
  match first_jpg fs leaf with
  | None => Some []
  | Some jpg =>
      let js := Path.with_suffix jpg ".json" in
      let prm := extract_prompt (read_meta fs js) in
      let dst := Path.join (Path.join (Path.join images_out bench) (Path.name iter))
                   (Path.name sub) in
      c ← make_candidate fs jpg dst bench iter sub mdl prm;
      Some [c]
  end.

(** [iters[:latest_iters]] under its guard. *)
Definition latest (latest_iters : option Z) (iters : list path) : list path :=
  match latest_iters with
  | Some n => if 0 <? n then slice_to n iters else iters
  | None => iters
  end.

(** Body of the inner loop of [crawl_geneval_candidates]. *)
Definition geneval_sub (fs : fsys) (images_out : path) (mdl : string)
    (iter count_dir : path) : option (list candidate) :=
  let samples := Path.join count_dir "samples" in
  if FS.exists_ fs samples
  then leaf_candidate fs images_out mdl "geneval" iter count_dir samples
  else Some [].

(** Body of the inner loop of [crawl_dpg_candidates]. *)
Definition dpg_sub (fs : fsys) (images_out : path) (mdl : string)
    (iter name_dir : path) : option (list candidate) :=
  leaf_candidate fs images_out mdl "dpg" iter name_dir name_dir.

(** Body of the outer loop of both crawlers, [sub] being the inner
    body. *)
Definition crawl_iter (fs : fsys) (sub : path -> path -> option (list candidate))
    (iter : path) : option (list candidate) :=
  let gen_dir := Path.join iter "generation" in
  if FS.exists_ fs gen_dir then
    subs ← child_dirs_numeric_sorted fs gen_dir true;
    (@List.concat candidate) <$> mapM (sub iter) subs
  else Some [].

Definition crawl (fs : fsys) (sub : path -> path -> option (list candidate))
    (root : path) (latest_iters : option Z) : option (list candidate) :=
  iters ← iter_dirs_numeric_sorted fs root true;
  (@List.concat candidate) <$> mapM (crawl_iter fs sub) (latest latest_iters iters).

(** [crawl_geneval_candidates] *)
Definition crawl_geneval_candidates (fs : fsys) (root images_out : path)
    (mdl : string) (latest_iters : option Z) : option (list candidate) :=
  crawl fs (geneval_sub fs images_out mdl) root latest_iters.

(** [crawl_dpg_candidates] *)
Definition crawl_dpg_candidates (fs : fsys) (root images_out : path)
    (mdl : string) (latest_iters : option Z) : option (list candidate) :=
  crawl fs (dpg_sub fs images_out mdl) root latest_iters.

(** ** Selection engine *)

(** The key of the global sort. *)
Definition sort_key (c : candidate) : Z * Z * Z * string :=
  (iter_num c, sub_num c, mtime c, benchmark c).

(** [<] on the keys. *)
Definition key_ltb (a b : Z * Z * Z * string) : bool :=
  let '(i1, s1, m1, b1) := a in
  let '(i2, s2, m2, b2) := b in
  if i1 <? i2 then true else if i2 <? i1 then false
  else if s1 <? s2 then true else if s2 <? s1 then false
  else if m1 <? m2 then true else if m2 <? m1 then false
  else PyStr.ltb b1 b2.

(** [candidates.sort(key=..., reverse=True)] *)
Definition sort_candidates (cands : list candidate) : list candidate :=
  py_sort sort_key key_ltb true cands.

(** [effective_limit] as [main] computes it from the count taken on the
    site root. *)
Definition effective_limit (max_items file_budget existing_files : Z) : Z :=
  let headroom := file_budget - existing_files in
  let headroom := if headroom <? 0 then 0 else headroom in
  Z.min max_items headroom.

(** ** Materializer *)

(** [s.replace("\\", "/")] *)
Definition slashes (s : string) : string :=
  PyStr.of_chars
    (map (fun c => if Ascii.eqb c "\"%char then "/"%char else c) (PyStr.chars s)).

(** [copy_to_site]: the new state, the path for the manifest, and whether
    [shutil.copy2] ran. *)
Definition copy_to_site (env : os_env) (fs : fsys) (source dst_d site_root : path)
  : option (fsys * string * bool) :=
  fs1 ← FS.mkdir_p env fs dst_d;
  let dst := Path.join dst_d (Path.name source) in
  stale ← (if FS.exists_ fs1 dst then
             s ← FS.stat fs1 source;
             d ← FS.stat fs1 dst;
             Some ((st_mtime d <? st_mtime s) || negb (st_size s =? st_size d))
           else Some true);
  fs2 ← (if stale : bool then FS.copy2 env fs1 source dst else Some fs1);
  rel ← Path.relative_to dst site_root;
  Some (fs2, slashes (Path.to_string rel), stale).

(** One entry of the manifest; [extra] is always the empty dictionary. *)
Record item : Type := Item {
  item_id : string;
  item_benchmark : string;
  item_dataset : string;
  item_split : string;
  item_prompt : string;
  item_image : string;
  item_reference : string;
  item_answer : string;
  item_prediction : string;
  item_model : string;
  item_tags : list string
}.

Definition make_item (c : candidate) (web_rel : string) : item :=
  let second_tag_key := if String.eqb (benchmark c) "geneval" then "count" else "name" in
  {| item_id := id c;
     item_benchmark := benchmark c;
     item_dataset := benchmark c;
     item_split := "";
     item_prompt := prompt c;
     item_image := web_rel;
     item_reference := "";
     item_answer := "";
     item_prediction := "";
     item_model := model c;
     item_tags := ["iter:" +:+ iter_dir c; second_tag_key +:+ ":" +:+ sub_dir c] |}.

(** The copy loop of [main]: the state, the items, and for each selected
    candidate whether its file was copied. *)
Fixpoint materialize (env : os_env) (fs : fsys) (site : path)
    (selected : list candidate) : option (fsys * list item * list bool) :=
  match selected with
  | [] => Some (fs, [], [])
  | c :: rest =>
      '(fs1, web_rel, copied) ← copy_to_site env fs (src c) (dst_dir c) site;
      '(fs2, items, flags) ← materialize env fs1 site rest;
      Some (fs2, make_item c web_rel :: items, copied :: flags)
  end.

(** The manifest document. *)
Record manifest : Type := Manifest {
  created_at : string;
  benchmarks : list string;
  items : list item
}.

Definition item_json (it : item) : json :=
  JObj [("id", JStr (item_id it));
        ("benchmark", JStr (item_benchmark it));
        ("dataset", JStr (item_dataset it));
        ("split", JStr (item_split it));
        ("prompt", JStr (item_prompt it));
        ("image", JStr (item_image it));
        ("reference", JStr (item_reference it));
        ("answer", JStr (item_answer it));
        ("prediction", JStr (item_prediction it));
        ("model", JStr (item_model it));
        ("tags", JList (map JStr (item_tags it)));
        ("extra", JObj [])].

Definition manifest_json (m : manifest) : json :=
  JObj [("meta", JObj [("created_at", JStr (created_at m));
                       ("benchmarks", JList (map JStr (benchmarks m)))]);
        ("items", JList (map item_json (items m)))].

(** [sorted(list(set(x["benchmark"] for x in items)))] *)
Definition benchmarks_of (its : list item) : list string :=
  py_sort (fun b => b) PyStr.ltb false (remove_dups (map item_benchmark its)).

(** ** The main procedure *)

(** The parsed command line.  A root is [None] when the option is absent
    or empty. *)
Record args : Type := Args {
  site_dir : path;
  geneval_root : option path;
  dpg_root : option path;
  model_arg : string;
  max_items : Z;
  latest_iters : option Z;
  file_budget : Z;
  dry_run : bool
}.

(** What the tool prints, by its fields. *)
Inductive line : Type :=
  | ErrNoIndex (site : path)
  | OkNothing
  | Info (candidates existing_files budget limit_items limit : Z) (chosen : nat)
  | Preview (rank : nat) (bench iter sub : string) (source : path)
  | DryRun
  | OkWrote (doc : path) (count : nat).

(** A run that ends without an uncaught exception: the exit code, the
    file system it leaves, what it printed, and, for the statements below,
    the candidates it selected, the copy decisions and the manifest it
    wrote. *)
Record run : Type := Run {
  exit_code : Z;
  fs_after : fsys;
  printed : list line;
  selected : list candidate;
  copied : list bool;
  written : option manifest
}.

(** Candidates of both benchmarks, in discovery order. *)
Definition discover (a : args) (fs : fsys) (images_out : path)
  : option (list candidate) :=
  g ← match geneval_root a with
      | Some r =>
          crawl_geneval_candidates fs r images_out (infer_model r (model_arg a))
            (latest_iters a)
      | None => Some []
      end;
  d ← match dpg_root a with
      | Some r =>
          crawl_dpg_candidates fs r images_out (infer_model r (model_arg a))
            (latest_iters a)
      | None => Some []
      end;
  Some (g ++ d).

Fixpoint preview_lines (i : nat) (l : list candidate) : list line :=
  match l with
  | [] => []
  | c :: l' =>
      Preview (S i) (benchmark c) (iter_dir c) (sub_dir c) (src c)
        :: preview_lines (S i) l'
  end.

(** [main]; [None] when an exception escapes. *)
Definition main (env : os_env) (a : args) (fs : fsys) : option run :=
  let site := site_dir a in
  if negb (FS.exists_ fs (Path.join site "index.html")) then
    Some (Run 2 fs [ErrNoIndex site] [] [] None)
  else
    let images_out := Path.join site "images" in
    fs1 ← FS.mkdir_p env fs images_out;
    candidates ← discover a fs1 images_out;
    let total_candidates := Z.of_nat (length candidates) in
    if total_candidates =? 0 then
      let doc := Manifest (stamp env) [] [] in
      fs2 ← FS.write_json env fs1 (Path.join site "manifest.json") (manifest_json doc);
      Some (Run 0 fs2 [OkNothing] [] [] (Some doc))
    else
      let candidates := sort_candidates candidates in
      let existing_files := count_files fs1 site in
      let limit := effective_limit (max_items a) (file_budget a) existing_files in
      let chosen := slice_to limit candidates in
      let info := Info total_candidates existing_files (file_budget a) (max_items a)
                    limit (length chosen) in
      if dry_run a then
        Some (Run 0 fs1 (info :: preview_lines 0 (slice_to 10 chosen) ++ [DryRun])
                chosen [] None)
      else
        '(fs2, its, flags) ← materialize env fs1 site chosen;
        let doc := Manifest (stamp env) (benchmarks_of its) its in
        let target := Path.join site "manifest.json" in
        fs3 ← FS.write_json env fs2 target (manifest_json doc);
        Some (Run 0 fs3 [info; OkWrote target (length its)] chosen flags (Some doc)).

(** ** Notions the statements use *)

(** A strict weak order given as a boolean test. *)
Record strict_weak {K} (lt : K -> K -> bool) : Prop := StrictWeak {
  sw_irrefl : forall a, lt a a = false;
  sw_trans : forall a b c, lt a b = true -> lt b c = true -> lt a c = true;
  sw_negtrans : forall a b c, lt a b = false -> lt b c = false -> lt a c = false
}.

Section Ranking.
Context {A K : Type} (key : A -> K) (lt : K -> K -> bool).

(** [x] may stand in front of [y] in the result of the sort. *)
Definition in_order (reverse : bool) (x y : A) : Prop :=
  stays_before key lt reverse y x = false.

(** [lt] does not tell the keys of [x] and [y] apart. *)
Definition same_rank (x y : A) : bool :=
  negb (lt (key x) (key y)) && negb (lt (key y) (key x)).
End Ranking.

(** Every occurrence of [x] in [l] comes before every occurrence of
    [y]. *)
Definition precedes {A} (x y : A) (l : list A) : Prop :=
  forall i j : nat, l !! i = Some x -> l !! j = Some y -> (i < j)%nat.

(** The descending order of the sort keys, component by component: the
    first component that differs decides, and it is the larger one that
    comes first. *)
Definition key_ge (a b : Z * Z * Z * string) : Prop :=
  let '(i1, s1, m1, b1) := a in
  let '(i2, s2, m2, b2) := b in
  i1 > i2 \/ (i1 = i2 /\ (s1 > s2 \/ (s1 = s2 /\ (m1 > m2 \/
    (m1 = m2 /\ String.compare b1 b2 <> Lt))))).

(** The number a sequence of decimal digits denotes, continuing from
    [acc]. *)
Definition decimal_from (acc : Z) (ds : list ascii) : Z :=
  fold_left (fun a c => a * 10 + default 0 (PyStr.digit_val c)) ds acc.

(** [digit_run t ds]: the text [t] is a sequence of digits, each with at
    most one underscore in front of it, and [ds] are those digits. *)
Inductive digit_run : list ascii -> list ascii -> Prop :=
  | run_end : digit_run [] []
  | run_digit c t ds :
      PyStr.is_digit c = true -> digit_run t ds -> digit_run (c :: t) (c :: ds)
  | run_separated c t ds :
      PyStr.is_digit c = true -> digit_run t ds ->
      digit_run ("_"%char :: c :: t) (c :: ds).

(** The white space [int] allows around a number, by code point: tab,
    line feed, vertical tab, form feed, carriage return, blank, next line
    and no-break space. *)
Definition int_space (c : ascii) : Prop :=
  In (nat_of_ascii c) [9; 10; 11; 12; 13; 32; 133; 160]%nat.

(** The notation [int] accepts: white space, an optional sign, a digit,
    a run of further digits, white space; and the number it denotes. *)
Definition int_literal (s : string) (n : Z) : Prop :=
  exists ws1 sign c t ds ws2,
    PyStr.chars s = ws1 ++ sign ++ c :: t ++ ws2
    /\ Forall int_space ws1
    /\ Forall int_space ws2
    /\ PyStr.is_digit c = true
    /\ digit_run t ds
    /\ (sign = [] /\ n = decimal_from 0 (c :: ds)
        \/ sign = ["+"%char] /\ n = decimal_from 0 (c :: ds)
        \/ sign = ["-"%char] /\ n = - decimal_from 0 (c :: ds)).

(** What the words "the full string is a base-10 integer" ask for: an
    optional sign and then digits, nothing else. *)
Definition plain_decimal (s : string) : bool :=
  match PyStr.chars s with
  | c :: l =>
      if Ascii.eqb c "-"%char || Ascii.eqb c "+"%char
      then match l with [] => false | _ => forallb PyStr.is_digit l end
      else forallb PyStr.is_digit (c :: l)
  | [] => false
  end.

(** [e'] is what became of the entry [e]: a regular file is as it was, a
    directory is still a directory (its time stamp moves when entries are
    made in it). *)
Definition kept (e e' : entry) : Prop :=
  if is_dir e then is_dir e' = true else e' = e.

(** ** A small world to run the tool in *)

Module Demo.

Definition file (m s : Z) : entry := Entry false m s None.
Definition folder (m : Z) : entry := Entry true m 4096 None.
Definition meta (m : Z) (doc : json) : entry := Entry false m 64 (Some doc).

(** A site with its entry page and a style sheet, a tree of the first
    benchmark under [g] and one of the second under [d]. *)
Definition tree : list (path * entry) :=
  [ ([], folder 0);
    (["site"], folder 0);
    (["site"; "index.html"], file 1 10);
    (["site"; "style.css"], file 1 20);
    (["g"], folder 0);
    (["g"; "10"], folder 5);
    (["g"; "10"; "generation"], folder 5);
    (["g"; "10"; "generation"; "3"], folder 5);
    (["g"; "10"; "generation"; "3"; "samples"], folder 5);
    (["g"; "10"; "generation"; "3"; "samples"; "b.jpg"], file 7 100);
    (["g"; "10"; "generation"; "3"; "samples"; "a.jpg"], file 8 101);
    (["g"; "10"; "generation"; "x"], folder 5);
    (["g"; "10"; "generation"; "x"; "samples"], folder 5);
    (["g"; "10"; "generation"; "x"; "samples"; "c.png"], file 9 102);
    (["g"; "9"], folder 6);
    (["g"; "9"; "generation"], folder 6);
    (["g"; "9"; "generation"; "1"], folder 6);
    (["g"; "9"; "generation"; "1"; "samples"], folder 6);
    (["g"; "9"; "generation"; "1"; "samples"; "x.jpg"], file 7 100);
    (["g"; "9"; "generation"; "1"; "samples"; "x.json"],
      meta 7 (JObj [("prompt", JStr " a cat ")]));
    (["g"; "alpha"], folder 99);
    (["g"; "alpha"; "generation"], folder 99);
    (["g"; "alpha"; "generation"; "2"], folder 99);
    (["g"; "alpha"; "generation"; "2"; "samples"], folder 99);
    (["g"; "alpha"; "generation"; "2"; "samples"; "y.jpg"], file 50 100);
    (["g"; "-5"], folder 3);
    (["g"; "-5"; "generation"], folder 3);
    (["g"; "-5"; "generation"; "1"], folder 3);
    (["g"; "-5"; "generation"; "1"; "samples"], folder 3);
    (["g"; "-5"; "generation"; "1"; "samples"; "z.jpg"], file 3 100);
    (["d"], folder 0);
    (["d"; "10"], folder 5);
    (["d"; "10"; "generation"], folder 5);
    (["d"; "10"; "generation"; "cat"], folder 5);
    (["d"; "10"; "generation"; "cat"; "p.jpg"], file 8 100);
    (["d"; "10"; "generation"; "cat"; "p.json"],
      meta 8 (JList [JObj [("value", JStr "a dog")]]));
    (["d"; "10"; "generation"; "dog"], folder 5);
    (["d"; "10"; "generation"; "dog"; "q.png"], file 8 100) ].

Definition disk : fsys := list_to_map tree.

Definition env : os_env := OsEnv 1000 "2026-01-01 00:00:00" 4096 (fun _ => 512).

(** The command line with both roots and the default limits. *)
Definition cmd : args :=
  {| site_dir := ["site"];
     geneval_root := Some ["g"];
     dpg_root := Some ["d"];
     model_arg := "";
     max_items := 19000;
     latest_iters := None;
     file_budget := 20000;
     dry_run := false |}.

Definition with_limits (items budget : Z) (a : args) : args :=
  {| site_dir := site_dir a;
     geneval_root := geneval_root a;
     dpg_root := dpg_root a;
     model_arg := model_arg a;
     max_items := items;
     latest_iters := latest_iters a;
     file_budget := budget;
     dry_run := dry_run a |}.

Definition with_dry_run (a : args) : args :=
  {| site_dir := site_dir a;
     geneval_root := geneval_root a;
     dpg_root := dpg_root a;
     model_arg := model_arg a;
     max_items := max_items a;
     latest_iters := latest_iters a;
     file_budget := file_budget a;
     dry_run := true |}.

Definition without_roots (a : args) : args :=
  {| site_dir := site_dir a;
     geneval_root := None;
     dpg_root := None;
     model_arg := model_arg a;
     max_items := max_items a;
     latest_iters := latest_iters a;
     file_budget := file_budget a;
     dry_run := dry_run a |}.

End Demo.

(** Whether an operation returned (did not raise). *)
Definition is_some {A} (o : option A) : bool :=
  match o with Some _ => true | None => false end.

(** The same world once [main] has made sure the image directory exists,
    what the crawlers find in it, and how a run from a given state ends
    (exit code 1 stands for an escaped exception, which no run below
    meets). *)
Module DemoRuns.

Definition images : path := ["site"; "images"].

Definition prepared : fsys :=
  default ∅ (FS.mkdir_p Demo.env Demo.disk images).

Definition found (a : args) : list candidate :=
  default [] (discover a prepared images).

Definition outcome (a : args) (fs : fsys) : run :=
  default (Run 1 fs [] [] [] None) (main Demo.env a fs).

End DemoRuns.

(** The candidates [main] chooses, given what it discovered and the
    state in which it counts the files. *)
Definition chosen_of (a : args) (fs : fsys) (cands : list candidate) : list candidate :=
  slice_to (effective_limit (max_items a) (file_budget a) (count_files fs (site_dir a)))
    (sort_candidates cands).

(** The number of copies [shutil.copy2] made, from the copy decisions. *)
Definition copies (flags : list bool) : Z :=
  Z.of_nat (length (List.filter (fun b : bool => b) flags)).

(** The order in which [iter_dirs_numeric_sorted] leaves two directories
    of one group, by their sort key. *)
Definition key_order (reverse : bool) (k1 k2 : Z) : Prop :=
  if reverse then k2 <= k1 else k1 <= k2.

(** What a crawler records about the image [jpg] it found for the
    iteration directory [iter] and the sub-unit directory [sub]. *)
Definition describes (fs : fsys) (images_out : path) (mdl bench : string)
    (iter sub jpg : path) (c : candidate) : Prop :=
  src c = jpg
  /\ dst_dir c = Path.join (Path.join (Path.join images_out bench) (Path.name iter))
                   (Path.name sub)
  /\ benchmark c = bench
  /\ iter_dir c = Path.name iter
  /\ sub_dir c = Path.name sub
  /\ model c = mdl
  /\ prompt c = extract_prompt (read_meta fs (Path.with_suffix jpg ".json"))
  /\ (exists e, fs !! jpg = Some e /\ mtime c = st_mtime e)
  /\ iter_num c = default (-1) (parse_int (Path.name iter))
  /\ sub_num c = default (-1) (parse_int (Path.name sub))
  /\ id c = bench +:+ "-" +:+ Path.name iter +:+ "-" +:+ Path.name sub
              +:+ "-" +:+ Path.stem jpg.

(** Two of the pictures the demo trees hold, as the crawlers record them
    for the model name [m], and a command line whose first root is
    replaced. *)
Definition demo_geneval_picture : candidate :=
  {| src := ["g"; "9"; "generation"; "1"; "samples"; "x.jpg"];
     dst_dir := ["site"; "images"; "geneval"; "9"; "1"];
     benchmark := "geneval";
     iter_dir := "9";
     sub_dir := "1";
     model := "m";
     prompt := "a cat";
     mtime := 7;
     iter_num := 9;
     sub_num := 1;
     id := "geneval-9-1-x" |}.

Definition demo_dpg_picture : candidate :=
  {| src := ["d"; "10"; "generation"; "cat"; "p.jpg"];
     dst_dir := ["site"; "images"; "dpg"; "10"; "cat"];
     benchmark := "dpg";
     iter_dir := "10";
     sub_dir := "cat";
     model := "m";
     prompt := "a dog";
     mtime := 8;
     iter_num := 10;
     sub_num := -1;
     id := "dpg-10-cat-p" |}.

Definition with_geneval_root (r : path) (a : args) : args :=
  {| site_dir := site_dir a;
     geneval_root := Some r;
     dpg_root := dpg_root a;
     model_arg := model_arg a;
     max_items := max_items a;
     latest_iters := latest_iters a;
     file_budget := file_budget a;
     dry_run := dry_run a |}.

(** The file [copy_to_site] writes for a candidate. *)
Definition dst_of (c : candidate) : path := Path.join (dst_dir c) (Path.name (src c)).

(** A state in which [copy_to_site] has nothing to do for a source and a
    destination directory: the directories down to the destination
    directory are there, and so is a regular file of the source's name
    and size that is not older than the source. *)
Definition settled (fs : fsys) (site source dst_d : path) (rel : string) : Prop :=
  exists s d r,
    fs !! source = Some s /\ fs !! Path.join dst_d (Path.name source) = Some d
    /\ is_dir d = false
    /\ st_mtime s <= st_mtime d /\ st_size s = st_size d
    /\ (forall q, In q (Path.prefixes dst_d) -> FS.isdir fs q = true)
    /\ Path.relative_to (Path.join dst_d (Path.name source)) site = Some r
    /\ rel = slashes (Path.to_string r).

(** A world in which the source of one candidate is a directory into
    which the other candidate is copied, and a copy of the first is
    already in place. *)
Definition clash_disk : fsys :=
  list_to_map
    [ ([], Demo.folder 0);
      (["s"], Demo.folder 0);
      (["s"; "a"], Demo.folder 5);
      (["s"; "i"], Demo.folder 0);
      (["s"; "i"; "a"], Demo.file 10 4096);
      (["b.jpg"], Demo.file 1 3) ].

Definition clash_pictures : list candidate :=
  [ {| src := ["s"; "a"]; dst_dir := ["s"; "i"]; benchmark := "geneval";
       iter_dir := "1"; sub_dir := "1"; model := "m"; prompt := "";
       mtime := 5; iter_num := 1; sub_num := 1; id := "geneval-1-1-a" |};
    {| src := ["b.jpg"]; dst_dir := ["s"; "a"]; benchmark := "dpg";
       iter_dir := "1"; sub_dir := "1"; model := "m"; prompt := "";
       mtime := 1; iter_num := 1; sub_num := 1; id := "dpg-1-1-b" |} ].

Definition clash_copies : fsys * list item * list bool :=
  default (∅, [], []) (materialize Demo.env clash_disk ["s"] clash_pictures).

(** A later moment in the demo world. *)
Definition demo_later : os_env := OsEnv 2000 "2026-01-02 00:00:00" 4096 (fun _ => 512).

(** The state and the results of the copy loop on the demo world for the
    two demo pictures. *)
Definition demo_pictures : list candidate := [demo_geneval_picture; demo_dpg_picture].

Definition demo_copy : fsys * string * bool :=
  default (∅, "", false)
    (copy_to_site Demo.env Demo.disk (src demo_geneval_picture)
       (dst_dir demo_geneval_picture) ["site"]).

Definition demo_copies : fsys * list item * list bool :=
  default (∅, [], []) (materialize Demo.env Demo.disk ["site"] demo_pictures).

(** The results of the recursive calls of [extract_prompt] on the fields
    of a dictionary. *)
Definition nested_calls (fields : list (string * json)) : list (string * option string) :=
  map (fun kv => (kv.1, if is_container kv.2 then Some (extract_prompt kv.2) else None))
    fields.

(** What [infer_model] falls back on. *)
Definition model_fallback (fallback : string) : string :=
  if decide (fallback = "") then "unknown-model" else fallback.

(** Two more pictures of the demo tree: one below a directory whose name
    is no integer, one below a directory with a negative number. *)
Definition demo_alpha_picture : candidate :=
  {| src := ["g"; "alpha"; "generation"; "2"; "samples"; "y.jpg"];
     dst_dir := ["site"; "images"; "geneval"; "alpha"; "2"];
     benchmark := "geneval";
     iter_dir := "alpha";
     sub_dir := "2";
     model := "m";
     prompt := "";
     mtime := 50;
     iter_num := -1;
     sub_num := 2;
     id := "geneval-alpha-2-y" |}.

Definition demo_minus_picture : candidate :=
  {| src := ["g"; "-5"; "generation"; "1"; "samples"; "z.jpg"];
     dst_dir := ["site"; "images"; "geneval"; "-5"; "1"];
     benchmark := "geneval";
     iter_dir := "-5";
     sub_dir := "1";
     model := "m";
     prompt := "";
     mtime := 3;
     iter_num := -5;
     sub_num := 1;
     id := "geneval--5-1-z" |}.

Definition demo_geneval_found : list candidate :=
  default [] (crawl_geneval_candidates Demo.disk ["g"] DemoRuns.images "m" None).

(** The manifest entry of a selected candidate, field by field: the
    candidate's id, benchmark (also as dataset), prompt and model, the
    two tags, blanks elsewhere and, as image, its destination file
    relative to the site root. *)
Definition lists (site : path) (c : candidate) (it : item) : Prop :=
  exists r,
    dst_of c = site ++ r
    /\ item_id it = id c
    /\ item_benchmark it = benchmark c
    /\ item_dataset it = benchmark c
    /\ item_split it = ""
    /\ item_prompt it = prompt c
    /\ item_image it
       = slashes (match r with [] => "." | _ :: _ => String.concat "/" r end)
    /\ item_reference it = ""
    /\ item_answer it = ""
    /\ item_prediction it = ""
    /\ item_model it = model c
    /\ item_tags it
       = ["iter:" +:+ iter_dir c;
          (if decide (benchmark c = "geneval") then "count:" else "name:")
            +:+ sub_dir c].

(** The object the manifest file holds for an item. *)
Definition item_object (it : item) (j : json) : Prop :=
  j = JObj [("id", JStr (item_id it));
            ("benchmark", JStr (item_benchmark it));
            ("dataset", JStr (item_dataset it));
            ("split", JStr (item_split it));
            ("prompt", JStr (item_prompt it));
            ("image", JStr (item_image it));
            ("reference", JStr (item_reference it));
            ("answer", JStr (item_answer it));
            ("prediction", JStr (item_prediction it));
            ("model", JStr (item_model it));
            ("tags", JList (map JStr (item_tags it)));
            ("extra", JObj [])].

(** Two candidates have the same sort key. *)
Definition same_key (z c : candidate) : bool :=
  bool_decide (iter_num c = iter_num z /\ sub_num c = sub_num z
               /\ mtime c = mtime z /\ benchmark c = benchmark z).

(** The manifest of the run of the demo command line on the demo world. *)
Definition demo_manifest : manifest :=
  default (Manifest "" [] []) (written (DemoRuns.outcome Demo.cmd Demo.disk)).

(** * Properties *)

(** ** The order on strings *)

Section StringOrder.

Lemma ascii_compare_lt_trans a b c :
  Ascii.compare a b = Lt -> Ascii.compare b c = Lt -> Ascii.compare a c = Lt.
Proof.
  unfold Ascii.compare. rewrite !N.compare_lt_iff. lia.
Qed.

Lemma ascii_compare_refl a : Ascii.compare a a = Eq.
Proof. unfold Ascii.compare. apply N.compare_refl. Qed.

Lemma string_compare_refl s : String.compare s s = Eq.
Proof.
  induction s as [|a s IH]; simpl; [done|]. by rewrite ascii_compare_refl.
Qed.

Lemma string_compare_lt_trans s t u :
  String.compare s t = Lt -> String.compare t u = Lt -> String.compare s u = Lt.
Proof.
  revert t u. induction s as [|a s IH]; intros [|b t] [|c u]; simpl; try done.
  destruct (Ascii.compare a b) eqn:Hab; try done;
    destruct (Ascii.compare b c) eqn:Hbc; try done; intros H1 H2.
  - apply Ascii.compare_eq_iff in Hab, Hbc. subst.
    rewrite ascii_compare_refl. eauto.
  - apply Ascii.compare_eq_iff in Hab. subst. by rewrite Hbc.
  - apply Ascii.compare_eq_iff in Hbc. subst. by rewrite Hab.
  - by rewrite (ascii_compare_lt_trans a b c).
Qed.

Lemma ltb_irrefl s : PyStr.ltb s s = false.
Proof. unfold PyStr.ltb. by rewrite string_compare_refl. Qed.

Lemma ltb_trans s t u :
  PyStr.ltb s t = true -> PyStr.ltb t u = true -> PyStr.ltb s u = true.
Proof.
  unfold PyStr.ltb. intros H1 H2.
  destruct (String.compare s t) eqn:E1; try done.
  destruct (String.compare t u) eqn:E2; try done.
  by rewrite (string_compare_lt_trans s t u).
Qed.

Lemma ltb_total s t :
  PyStr.ltb s t = false -> PyStr.ltb t s = false -> s = t.
Proof.
  unfold PyStr.ltb. rewrite (String.compare_antisym t s).
  destruct (String.compare s t) eqn:E; simpl; try done.
  intros _ _. by apply String.compare_eq_iff.
Qed.

Lemma ltb_negtrans s t u :
  PyStr.ltb s t = false -> PyStr.ltb t u = false -> PyStr.ltb s u = false.
Proof.
  intros H1 H2. destruct (PyStr.ltb s u) eqn:E; [|done].
  destruct (PyStr.ltb u t) eqn:E2.
  - by rewrite (ltb_trans s u t) in H1.
  - assert (t = u) by (by apply ltb_total). subst. congruence.
Qed.

End StringOrder.

(** ** The stable sort *)

Section PySortFacts.
Context {A K : Type} (key : A -> K) (lt : K -> K -> bool).
Hypothesis Hlt : strict_weak lt.

Local Abbreviation in_order := (in_order key lt).
Local Abbreviation same_rank := (same_rank key lt).

Lemma stays_before_asym rev x y :
  stays_before key lt rev y x = true -> stays_before key lt rev x y = false.
Proof.
  unfold stays_before. destruct Hlt as [Hi Ht _].
  destruct rev; intros H.
  - destruct (lt (key y) (key x)) eqn:E; [|done].
    pose proof (Ht _ _ _ H E) as C. by rewrite Hi in C.
  - destruct (lt (key x) (key y)) eqn:E; [|done].
    pose proof (Ht _ _ _ H E) as C. by rewrite Hi in C.
Qed.

Lemma in_order_trans rev x y z :
  in_order rev x y -> in_order rev y z -> in_order rev x z.
Proof.
  unfold in_order, stays_before. destruct Hlt as [_ _ Hn].
  destruct rev; eauto.
Qed.

Lemma insert_sorted_perm rev x l : insert_sorted key lt rev x l ≡ₚ x :: l.
Proof.
  induction l as [|y l IH]; simpl; [done|].
  destruct (stays_before key lt rev y x); [|done].
  rewrite IH. apply Permutation_swap.
Qed.

Lemma py_sort_perm rev l : py_sort key lt rev l ≡ₚ l.
Proof.
  induction l as [|x l IH]; simpl; [done|].
  by rewrite insert_sorted_perm, IH.
Qed.

Lemma insert_sorted_sorted rev x l :
  StronglySorted (in_order rev) l ->
  StronglySorted (in_order rev) (insert_sorted key lt rev x l).
Proof.
  induction 1 as [|y l Hs IH Hall]; simpl.
  - repeat constructor.
  - destruct (stays_before key lt rev y x) eqn:E.
    + constructor; [done|].
      rewrite insert_sorted_perm. constructor; [|done].
      unfold in_order. by apply stays_before_asym.
    + constructor; [by constructor|].
      constructor; [done|].
      eapply Forall_impl; [exact Hall|].
      intros z Hz. by apply (in_order_trans rev x y z).
Qed.

Lemma py_sort_sorted rev l : StronglySorted (in_order rev) (py_sort key lt rev l).
Proof.
  induction l as [|x l IH]; simpl; [constructor|].
  by apply insert_sorted_sorted.
Qed.

Lemma stays_before_not_same_rank rev x y :
  stays_before key lt rev y x = true -> same_rank x y = false.
Proof.
  unfold stays_before, same_rank. destruct rev; intros ->; simpl; [done|].
  apply andb_false_r.
Qed.

Lemma same_rank_sym x y : same_rank x y = same_rank y x.
Proof. unfold same_rank. apply andb_comm. Qed.

Lemma same_rank_trans_l x y z :
  same_rank x y = true -> same_rank z x = same_rank z y.
Proof.
  unfold same_rank. destruct Hlt as [_ Ht Hn].
  rewrite andb_true_iff, !negb_true_iff. intros [H1 H2].
  destruct (lt (key z) (key x)) eqn:E1, (lt (key z) (key y)) eqn:E2,
    (lt (key x) (key z)) eqn:E3, (lt (key y) (key z)) eqn:E4; simpl; try done;
    first [ by rewrite (Hn _ _ _ E2 H2) in E1
          | by rewrite (Hn _ _ _ E1 H1) in E2
          | by rewrite (Hn _ _ _ H1 E4) in E3
          | by rewrite (Hn _ _ _ H2 E3) in E4 ].
Qed.

(** Stability: within one rank the order of the input is kept. *)
Lemma insert_sorted_stable rev z x l :
  List.filter (same_rank z) (insert_sorted key lt rev x l)
  = List.filter (same_rank z) (x :: l).
Proof.
  induction l as [|y l IH]; [done|].
  cbn [insert_sorted].
  destruct (stays_before key lt rev y x) eqn:E; [|done].
  cbn [List.filter] in *. rewrite IH.
  apply stays_before_not_same_rank in E.
  destruct (same_rank z x) eqn:Ex, (same_rank z y) eqn:Ey; try done.
  rewrite (same_rank_sym x y) in E.
  rewrite <- (same_rank_trans_l z x y Ex), (same_rank_sym y z) in E.
  congruence.
Qed.

Lemma py_sort_stable rev z l :
  List.filter (same_rank z) (py_sort key lt rev l) = List.filter (same_rank z) l.
Proof.
  induction l as [|x l IH]; [done|].
  cbn [py_sort foldr]. rewrite insert_sorted_stable.
  cbn [List.filter]. fold (py_sort key lt rev l). by rewrite IH.
Qed.

End PySortFacts.

(** ** The orders the tool sorts by *)

Section KeyOrders.

Lemma Z_ltb_strict_weak : strict_weak Z.ltb.
Proof. split; intros *; rewrite ?Z.ltb_lt, ?Z.ltb_ge; lia. Qed.

Lemma str_ltb_strict_weak : strict_weak PyStr.ltb.
Proof.
  split; [apply ltb_irrefl | apply ltb_trans | apply ltb_negtrans].
Qed.

Local Ltac split_ltb :=
  repeat match goal with
    | |- context [Z.ltb ?x ?y] => destruct (Z.ltb_spec x y)
    | H : context [Z.ltb ?x ?y] |- _ => destruct (Z.ltb_spec x y)
    end.

Lemma key_ltb_strict_weak : strict_weak key_ltb.
Proof.
  split.
  - intros [[[i s] m] b]. unfold key_ltb. rewrite !Z.ltb_irrefl. apply ltb_irrefl.
  - intros [[[i1 s1] m1] b1] [[[i2 s2] m2] b2] [[[i3 s3] m3] b3].
    unfold key_ltb. intros H1 H2. split_ltb; try done; try lia.
    eauto using ltb_trans.
  - intros [[[i1 s1] m1] b1] [[[i2 s2] m2] b2] [[[i3 s3] m3] b3].
    unfold key_ltb. intros H1 H2. split_ltb; try done; try lia.
    eauto using ltb_negtrans.
Qed.

Lemma key_ltb_false_iff a b : key_ltb a b = false <-> key_ge a b.
Proof.
  destruct a as [[[i1 s1] m1] b1], b as [[[i2 s2] m2] b2].
  unfold key_ltb, key_ge, PyStr.ltb.
  split_ltb; try lia; try (split; [done | lia]); try (split; [lia | done]).
  destruct (String.compare b1 b2) eqn:E; split; try done; try lia.
  all: try (intros _; right; split; [lia|]; right; split; [lia|]; right;
            split; [lia|]; congruence).
  intros [?|[_ [?|[_ [?|[_ ?]]]]]]; try lia; congruence.
Qed.

Lemma key_ge_total a b : key_ge a b \/ key_ge b a.
Proof.
  rewrite <- !key_ltb_false_iff.
  destruct (key_ltb a b) eqn:E; [right|by left].
  destruct (key_ltb b a) eqn:E2; [|done].
  destruct key_ltb_strict_weak as [Hi Ht _].
  pose proof (Ht _ _ _ E E2) as C. by rewrite Hi in C.
Qed.

Lemma key_ge_antisym a b : key_ge a b -> key_ge b a -> a = b.
Proof.
  rewrite <- !key_ltb_false_iff.
  destruct a as [[[i1 s1] m1] b1], b as [[[i2 s2] m2] b2].
  unfold key_ltb. intros H1 H2. split_ltb; try done; try lia.
  assert (i1 = i2) as -> by lia. assert (s1 = s2) as -> by lia.
  assert (m1 = m2) as -> by lia. f_equal. by apply ltb_total.
Qed.

Lemma path_ltb_strict_weak : strict_weak path_ltb.
Proof.
  split.
  - induction a as [|x a IH]; simpl; [done|].
    by rewrite ltb_irrefl, String.eqb_refl.
  - induction a as [|x a IH]; intros [|y b] [|z c]; simpl; try done.
    destruct (PyStr.ltb x y) eqn:E1.
    + intros _. destruct (PyStr.ltb y z) eqn:E2.
      * by rewrite (ltb_trans x y z).
      * destruct (String.eqb_spec y z) as [->|]; [|done]. by rewrite E1.
    + destruct (String.eqb_spec x y) as [->|]; [|done].
      destruct (PyStr.ltb y z) eqn:E2; [done|].
      destruct (String.eqb_spec y z) as [->|]; [|done]. eauto.
  - induction a as [|x a IH]; intros [|y b] [|z c]; simpl; try done.
    destruct (PyStr.ltb x y) eqn:E1; [done|].
    destruct (PyStr.ltb y z) eqn:E2.
    { destruct (String.eqb_spec x y) as [->|]; [by rewrite E2|].
      intros _. done. }
    rewrite (ltb_negtrans x y z) by done.
    destruct (String.eqb_spec x y) as [->|Hxy].
    + destruct (String.eqb_spec y z) as [->|]; [eauto|done].
    + intros _ _. destruct (String.eqb_spec x z) as [->|]; [|done].
      exfalso. apply Hxy. by apply ltb_total.
Qed.

Lemma path_ltb_total p q : path_ltb p q = false -> path_ltb q p = false -> p = q.
Proof.
  revert q. induction p as [|x p IH]; intros [|y q]; simpl; try done.
  destruct (PyStr.ltb x y) eqn:E1; [done|].
  destruct (String.eqb_spec x y) as [->|Hxy].
  - rewrite E1, String.eqb_refl. intros. f_equal. eauto.
  - intros _. destruct (PyStr.ltb y x) eqn:E2; [done|].
    exfalso. apply Hxy. by apply ltb_total.
Qed.
End KeyOrders.

(** ** The global order of the candidates *)

Lemma same_rank_key (z c : candidate) :
  same_rank sort_key key_ltb z c = bool_decide (sort_key c = sort_key z).
Proof.
  unfold same_rank. case_bool_decide as E.
  - rewrite E. destruct key_ltb_strict_weak as [Hi _ _]. by rewrite Hi.
  - destruct (key_ltb (sort_key z) (sort_key c)) eqn:E1; [done|].
    destruct (key_ltb (sort_key c) (sort_key z)) eqn:E2; [done|].
    exfalso. apply E. apply key_ge_antisym; by apply key_ltb_false_iff.
Qed.

Lemma StronglySorted_weaken {A} (R S : A -> A -> Prop) l :
  (forall x y, R x y -> S x y) -> StronglySorted R l -> StronglySorted S l.
Proof.
  intros HRS. induction 1 as [|x l Hs IH Hall]; constructor; [done|].
  eapply Forall_impl; eauto.
Qed.

Lemma sort_candidates_perm cands : sort_candidates cands ≡ₚ cands.
Proof. apply py_sort_perm. Qed.

Lemma sort_candidates_sorted cands :
  StronglySorted (fun c d => key_ge (sort_key c) (sort_key d)) (sort_candidates cands).
Proof.
  eapply StronglySorted_weaken;
    [|apply (py_sort_sorted sort_key key_ltb key_ltb_strict_weak)].
  intros c d. unfold in_order, stays_before. apply key_ltb_false_iff.
Qed.

Lemma sort_candidates_stable z cands :
  List.filter (fun c => bool_decide (sort_key c = sort_key z)) (sort_candidates cands)
  = List.filter (fun c => bool_decide (sort_key c = sort_key z)) cands.
Proof.
  rewrite <- !(List.filter_ext _ _ (same_rank_key z)).
  apply py_sort_stable, key_ltb_strict_weak.
Qed.

(** ** The integer scanner *)

Section IntScanner.
Import PyStr PyInt.

Lemma is_digit_val c : is_digit c = true -> exists d, digit_val c = Some d.
Proof. unfold is_digit. destruct (digit_val c); [eauto|done]. Qed.

Lemma blank_not_digit c : is_blank c = true -> digit_val c = None.
Proof.
  unfold is_blank, digit_val. generalize (nat_of_ascii c). intros n H.
  destruct ((48 <=? n)%nat && (n <=? 57)%nat) eqn:E; [|done].
  exfalso. apply andb_true_iff in E as [E1 E2].
  apply Nat.leb_le in E1, E2.
  rewrite !orb_true_iff, !andb_true_iff, !Nat.leb_le, !Nat.eqb_eq in H. lia.
Qed.

Lemma blank_not_mark c :
  is_blank c = true ->
  Ascii.eqb c "_" = false /\ Ascii.eqb c "+" = false /\ Ascii.eqb c "-" = false.
Proof.
  intros H. repeat split.
  all: match goal with
       | |- Ascii.eqb ?x ?m = false =>
           destruct (Ascii.eqb_spec x m) as [->|]; [by vm_compute in H | done]
       end.
Qed.

Lemma digit_not_mark c :
  is_digit c = true ->
  is_blank c = false /\ Ascii.eqb c "_" = false /\ Ascii.eqb c "+" = false
  /\ Ascii.eqb c "-" = false.
Proof.
  intros H. split.
  { destruct (is_blank c) eqn:E; [|done].
    apply blank_not_digit in E. unfold is_digit in H. by rewrite E in H. }
  repeat split.
  all: match goal with
       | |- Ascii.eqb ?x ?m = false =>
           destruct (Ascii.eqb_spec x m) as [->|]; [by vm_compute in H | done]
       end.
Qed.

Lemma skip_blank_run ws l :
  forallb is_blank ws = true -> skip_blank (ws ++ l) = skip_blank l.
Proof.
  induction ws as [|c ws IH]; simpl; [done|].
  intros [-> ?]%andb_true_iff. eauto.
Qed.

Lemma skip_blank_split l :
  exists ws, l = ws ++ skip_blank l /\ forallb is_blank ws = true.
Proof.
  induction l as [|c l (ws & IH & Hws)]; simpl.
  - by exists [].
  - destruct (is_blank c) eqn:E.
    + exists (c :: ws). simpl. rewrite E, Hws. split; [by f_equal|done].
    + by exists [].
Qed.

Lemma skip_blank_stop c l : is_blank c = false -> skip_blank (c :: l) = c :: l.
Proof. simpl. by intros ->. Qed.

Lemma skip_blank_nil_iff l : skip_blank l = [] <-> forallb is_blank l = true.
Proof.
  induction l as [|c l IH]; simpl; [done|].
  destruct (is_blank c); simpl; [done|]. split; done.
Qed.

Lemma is_blank_space c : is_blank c = true <-> int_space c.
Proof.
  unfold is_blank, int_space. generalize (nat_of_ascii c). intros n.
  rewrite !orb_true_iff, !andb_true_iff, !Nat.leb_le, !Nat.eqb_eq.
  cbn [In]. lia.
Qed.

Lemma blanks_spaces ws : forallb is_blank ws = true <-> Forall int_space ws.
Proof.
  induction ws as [|c ws IH]; simpl; [split; [constructor|done]|].
  rewrite andb_true_iff, Forall_cons_iff, IH, is_blank_space. done.
Qed.

(** The scanner reads exactly a run of digits and stops in front of what
    follows. *)
Lemma scan_digits_sound n : forall acc l v r,
  (length l <= n)%nat ->
  scan_digits acc l = Some (v, r) ->
  exists t ds, l = t ++ r /\ digit_run t ds /\ v = decimal_from acc ds.
Proof.
  induction n as [|n IH]; intros acc l v r Hlen.
  - destruct l; [|simpl in Hlen; lia]. simpl. intros [= <- <-].
    exists [], []. repeat split. constructor.
  - destruct l as [|c l]; simpl.
    { intros [= <- <-]. exists [], []. repeat split. constructor. }
    simpl in Hlen. destruct (digit_val c) as [d|] eqn:Ec.
    + intros H. apply IH in H as (t & ds & -> & Hrun & ->); [|lia].
      exists (c :: t), (c :: ds). repeat split.
      * constructor; [|done]. unfold is_digit. by rewrite Ec.
      * simpl. by rewrite Ec.
    + destruct (Ascii.eqb_spec c "_"%char) as [->|Hc].
      * destruct l as [|c2 l]; [done|].
        destruct (digit_val c2) as [d|] eqn:Ec2; [|done].
        simpl in Hlen.
        intros H. apply IH in H as (t & ds & -> & Hrun & ->); [|lia].
        exists ("_"%char :: c2 :: t), (c2 :: ds). repeat split.
        -- constructor; [|done]. unfold is_digit. by rewrite Ec2.
        -- simpl. by rewrite Ec2.
      * intros [= <- <-]. exists [], []. repeat split. constructor.
Qed.

Lemma scan_digits_complete t ds : digit_run t ds ->
  forall acc ws, forallb is_blank ws = true ->
  scan_digits acc (t ++ ws) = Some (decimal_from acc ds, ws).
Proof.
  induction 1 as [|c t ds Hc Hrun IH|c t ds Hc Hrun IH]; intros acc ws Hws.
  - destruct ws as [|w ws]; [done|]. simpl in *.
    apply andb_true_iff in Hws as [Hw Hws].
    rewrite (blank_not_digit w Hw).
    by destruct (blank_not_mark w Hw) as (-> & _).
  - simpl. apply is_digit_val in Hc as [d Hd]. rewrite Hd. simpl.
    rewrite ?Hd. by rewrite IH.
  - cbn [app scan_digits]. apply is_digit_val in Hc as [d Hd].
    rewrite Hd. simpl. rewrite Hd. by rewrite IH.
Qed.

Lemma scan_unsigned_sound l v r :
  scan_unsigned l = Some (v, r) ->
  exists c t ds, l = c :: t ++ r /\ is_digit c = true /\ digit_run t ds
                 /\ v = decimal_from 0 (c :: ds).
Proof.
  destruct l as [|c l]; simpl; [done|].
  destruct (digit_val c) as [d|] eqn:Ec; [|done].
  intros H. apply (scan_digits_sound (length l)) in H as (t & ds & -> & Hrun & ->);
    [|done].
  exists c, t, ds. repeat split; [|done|].
  - unfold is_digit. by rewrite Ec.
  - simpl. by rewrite Ec.
Qed.

Lemma scan_unsigned_complete c t ds ws :
  is_digit c = true -> digit_run t ds -> forallb is_blank ws = true ->
  scan_unsigned (c :: t ++ ws) = Some (decimal_from 0 (c :: ds), ws).
Proof.
  intros Hc Hrun Hws. simpl. apply is_digit_val in Hc as [d Hd]. rewrite Hd.
  simpl. by apply scan_digits_complete.
Qed.

Lemma parse_int_literal s n : parse_int s = Some n <-> int_literal s n.
Proof.
  unfold parse_int, int, int_of_chars, int_literal. split.
  - destruct (skip_blank_split (chars s)) as (ws1 & Hs & Hws1).
    destruct (scan_signed (skip_blank (chars s))) as [[v r]|] eqn:E; [|done].
    destruct (skip_blank r) eqn:Er; [|done]. intros [= ->].
    apply skip_blank_nil_iff in Er. apply blanks_spaces in Hws1, Er.
    unfold scan_signed in E.
    destruct (skip_blank (chars s)) as [|c0 l] eqn:El; [done|].
    destruct (Ascii.eqb_spec c0 "-"%char) as [->|Hm].
    { destruct (scan_unsigned l) as [[v' r']|] eqn:E'; [|done].
      injection E as <- <-.
      apply scan_unsigned_sound in E' as (c & t & ds & -> & Hc & Hrun & ->).
      exists ws1, ["-"%char], c, t, ds, r'. rewrite Hs at 1. eauto 10. }
    destruct (Ascii.eqb_spec c0 "+"%char) as [->|Hp].
    { apply scan_unsigned_sound in E as (c & t & ds & -> & Hc & Hrun & ->).
      exists ws1, ["+"%char], c, t, ds, r. rewrite Hs at 1. eauto 10. }
    apply scan_unsigned_sound in E as (c & t & ds & [= -> ->] & Hc & Hrun & ->).
    exists ws1, [], c, t, ds, r. rewrite Hs at 1. eauto 10.
  - intros (ws1 & sign & c & t & ds & ws2 & -> & Hws1 & Hws2 & Hc & Hrun & Hn).
    apply blanks_spaces in Hws1, Hws2.
    rewrite skip_blank_run by done.
    destruct (digit_not_mark c Hc) as (Hsp & _ & Hp & Hm).
    destruct Hn as [[-> ->]|[[-> ->]|[-> ->]]]; simpl app.
    + rewrite skip_blank_stop by done. unfold scan_signed. rewrite Hm, Hp.
      rewrite (scan_unsigned_complete c t ds ws2) by done.
      by apply skip_blank_nil_iff in Hws2 as ->.
    + rewrite skip_blank_stop by done. unfold scan_signed.
      rewrite (scan_unsigned_complete c t ds ws2) by done. simpl.
      by apply skip_blank_nil_iff in Hws2 as ->.
    + rewrite skip_blank_stop by done. unfold scan_signed.
      rewrite (scan_unsigned_complete c t ds ws2) by done. simpl.
      by apply skip_blank_nil_iff in Hws2 as ->.
Qed.

End IntScanner.

Lemma all_digits_run l : forallb PyStr.is_digit l = true -> digit_run l l.
Proof.
  induction l as [|c l IH]; simpl; [constructor|].
  intros [? ?]%andb_true_iff. constructor; eauto.
Qed.

Lemma plain_decimal_literal s :
  plain_decimal s = true -> exists n, int_literal s n.
Proof.
  unfold plain_decimal, int_literal.
  destruct (PyStr.chars s) as [|c l] eqn:E; [done|].
  destruct (Ascii.eqb_spec c "-"%char) as [->|Hm]; simpl.
  { destruct l as [|d l]; [done|]. simpl. intros [Hd Hl]%andb_true_iff.
    exists (- decimal_from 0 (d :: l)), [], ["-"%char], d, l, l, [].
    rewrite app_nil_r. repeat split; eauto using all_digits_run. }
  destruct (Ascii.eqb_spec c "+"%char) as [->|Hp]; simpl.
  { destruct l as [|d l]; [done|]. simpl. intros [Hd Hl]%andb_true_iff.
    exists (decimal_from 0 (d :: l)), [], ["+"%char], d, l, l, [].
    rewrite app_nil_r. repeat split; eauto using all_digits_run. }
  intros [Hd Hl]%andb_true_iff.
  exists (decimal_from 0 (c :: l)), [], [], c, l, l, [].
  rewrite app_nil_r. repeat split; eauto using all_digits_run.
Qed.

(** C9, the claim as stated fails: the directory name [1_0] is not an
    optional sign followed by digits, yet [parse_int] returns an integer
    for it. *)
Lemma C9_underscore_name_accepted :
  parse_int "1_0" = Some 10 /\ plain_decimal "1_0" = false.
Proof. split; reflexivity. Qed.

(** C9, amended.  [parse_int] returns the integer [n] exactly when the
    string is, between optional white space, an optional sign followed by
    decimal digits in which single underscores may stand between digits,
    and [n] is the signed decimal value of the digits; it returns none for
    every other string, and it accepts every string that is just an
    optional sign followed by digits. *)
Theorem C9_parse_int_accepts (s : string) :
  (forall n, parse_int s = Some n <-> int_literal s n)
  /\ ((forall n, ~ int_literal s n) -> parse_int s = None)
  /\ (plain_decimal s = true -> exists n, parse_int s = Some n).
Proof.
  split; [intros n; apply parse_int_literal|]. split.
  - intros H. destruct (parse_int s) as [n|] eqn:E; [|done].
    apply parse_int_literal in E. by destruct (H n).
  - intros [n Hn]%plain_decimal_literal. exists n. by apply parse_int_literal.
Qed.

(** ** The file-system operations *)

Section FileOps.
Implicit Types (fs : fsys) (p q d : path) (e x : entry).

Lemma kept_refl e : kept e e.
Proof. unfold kept. by destruct (is_dir e) eqn:E. Qed.

Lemma kept_trans e1 e2 e3 : kept e1 e2 -> kept e2 e3 -> kept e1 e3.
Proof.
  unfold kept. destruct (is_dir e1) eqn:E1.
  - by intros ->.
  - intros ->. by rewrite E1.
Qed.

Lemma touch_ne env fs d p : p <> d -> FS.touch env fs d !! p = fs !! p.
Proof.
  intros Hne. unfold FS.touch. destruct (fs !! d) as [e|]; [|done].
  destruct (is_dir e); [|done]. by rewrite lookup_insert_ne.
Qed.

Lemma touch_kept env fs d p e :
  fs !! p = Some e -> exists e', FS.touch env fs d !! p = Some e' /\ kept e e'.
Proof.
  intros Hp. destruct (decide (p = d)) as [->|Hne].
  - unfold FS.touch. rewrite Hp. destruct (is_dir e) eqn:E.
    + rewrite lookup_insert_eq. eexists. split; [done|]. unfold kept. by rewrite E.
    + exists e. split; [done|apply kept_refl].
  - rewrite touch_ne by done. exists e. split; [done|apply kept_refl].
Qed.

Lemma touch_back env fs d p e' :
  FS.touch env fs d !! p = Some e' -> exists e, fs !! p = Some e /\ kept e e'.
Proof.
  destruct (decide (p = d)) as [->|Hne].
  - unfold FS.touch. destruct (fs !! d) as [e|] eqn:E; [|by rewrite E].
    destruct (is_dir e) eqn:Ed.
    + rewrite lookup_insert_eq. intros [= <-]. exists e. split; [done|].
      unfold kept. by rewrite Ed.
    + rewrite E. intros [= <-]. exists e. split; [done|apply kept_refl].
  - rewrite touch_ne by done. intros H. exists e'. split; [done|apply kept_refl].
Qed.

Lemma put_eq env fs p e : FS.put env fs p e !! p = Some e.
Proof. unfold FS.put. apply lookup_insert_eq. Qed.

Lemma put_ne env fs p e q :
  q <> p -> q <> Path.parent p -> FS.put env fs p e !! q = fs !! q.
Proof.
  intros H1 H2. unfold FS.put. rewrite lookup_insert_ne by done.
  destruct (FS.exists_ fs p); [done|]. by apply touch_ne.
Qed.

Lemma put_kept env fs p e q x :
  q <> p -> fs !! q = Some x ->
  exists x', FS.put env fs p e !! q = Some x' /\ kept x x'.
Proof.
  intros Hne Hq. unfold FS.put. rewrite lookup_insert_ne by done.
  destruct (FS.exists_ fs p); [|by apply touch_kept].
  exists x. split; [done|apply kept_refl].
Qed.

Lemma put_back env fs p e q x' :
  q <> p -> FS.put env fs p e !! q = Some x' ->
  exists x, fs !! q = Some x /\ kept x x'.
Proof.
  intros Hne. unfold FS.put. rewrite lookup_insert_ne by done.
  destruct (FS.exists_ fs p); [|apply touch_back].
  intros H. exists x'. split; [done|apply kept_refl].
Qed.

Lemma make_dirs_kept env l : forall fs fs' p e,
  FS.make_dirs env fs l = Some fs' -> fs !! p = Some e ->
  exists e', fs' !! p = Some e' /\ kept e e'.
Proof.
  induction l as [|q l IH]; simpl; intros fs fs' p e H Hp.
  - injection H as <-. exists e. split; [done|apply kept_refl].
  - destruct (fs !! q) as [eq|] eqn:Eq.
    + destruct (is_dir eq); [eauto|done].
    + assert (Hne : p <> q) by congruence.
      destruct (put_kept env fs q (Entry true (now env) (dir_size env) None) p e
                  Hne Hp) as (e1 & H1 & K1).
      destruct (IH _ _ _ _ H H1) as (e2 & H2 & K2).
      exists e2. split; [done|]. by eapply kept_trans.
Qed.

Lemma make_dirs_back env l : forall fs fs' p e',
  FS.make_dirs env fs l = Some fs' -> fs' !! p = Some e' ->
  (exists e, fs !! p = Some e /\ kept e e')
  \/ (fs !! p = None /\ In p l /\ is_dir e' = true).
Proof.
  induction l as [|q l IH]; simpl; intros fs fs' p e' H Hp.
  - injection H as <-. left. exists e'. split; [done|apply kept_refl].
  - destruct (fs !! q) as [eq|] eqn:Eq.
    + destruct (is_dir eq); [|done].
      destruct (IH _ _ _ _ H Hp) as [?|(? & ? & ?)]; [by left|right; auto].
    + destruct (IH _ _ _ _ H Hp) as [(e1 & H1 & K1)|(H1 & Hin & Hd)].
      * destruct (decide (p = q)) as [->|Hne].
        -- rewrite put_eq in H1. injection H1 as <-. right.
           repeat split; [done|by left|]. unfold kept in K1. by simpl in K1.
        -- apply put_back in H1 as (e0 & H0 & K0); [|done].
           left. exists e0. split; [done|]. by eapply kept_trans.
      * destruct (decide (p = q)) as [->|Hne]; [by rewrite put_eq in H1|].
        right. repeat split; [|by right|done].
        destruct (fs !! p) as [x|] eqn:Ex; [|done].
        destruct (put_kept env fs q (Entry true (now env) (dir_size env) None) p x
                    Hne Ex) as (x' & Hx' & _).
        congruence.
Qed.

(** Regular files are neither made, changed nor removed. *)
Lemma make_dirs_file env l fs fs' p e :
  FS.make_dirs env fs l = Some fs' -> is_dir e = false ->
  fs' !! p = Some e <-> fs !! p = Some e.
Proof.
  intros H He. split; intros Hp.
  - destruct (make_dirs_back _ _ _ _ _ _ H Hp) as [(e0 & H0 & K0)|(_ & _ & Hd)];
      [|congruence].
    unfold kept in K0. destruct (is_dir e0) eqn:E0; [congruence|]. by subst.
  - destruct (make_dirs_kept _ _ _ _ _ _ H Hp) as (e1 & H1 & K1).
    unfold kept in K1. rewrite He in K1. by subst.
Qed.

Lemma make_dirs_isdir env l fs fs' p :
  FS.make_dirs env fs l = Some fs' -> FS.isdir fs p = true -> FS.isdir fs' p = true.
Proof.
  intros H. unfold FS.isdir. destruct (fs !! p) as [e|] eqn:E; [|done].
  intros Hd. destruct (make_dirs_kept _ _ _ _ _ _ H E) as (e' & -> & K).
  unfold kept in K. by rewrite Hd in K.
Qed.

(** Outside the list nothing appears and nothing changes its kind. *)
Lemma make_dirs_other env l fs fs' p :
  FS.make_dirs env fs l = Some fs' -> ~ In p l ->
  FS.isdir fs' p = FS.isdir fs p /\ FS.exists_ fs' p = FS.exists_ fs p.
Proof.
  intros H Hp. unfold FS.isdir, FS.exists_.
  destruct (fs !! p) as [e|] eqn:E.
  - destruct (make_dirs_kept _ _ _ _ _ _ H E) as (e' & -> & K).
    unfold kept in K. destruct (is_dir e) eqn:Ed; [by rewrite K|by subst].
  - destruct (fs' !! p) as [e'|] eqn:E'; [|done].
    destruct (make_dirs_back _ _ _ _ _ _ H E') as [(e0 & H0 & _)|(_ & Hin & _)];
      [congruence|done].
Qed.

Lemma make_dirs_made env l : forall fs fs' q,
  FS.make_dirs env fs l = Some fs' -> In q l -> FS.isdir fs' q = true.
Proof.
  induction l as [|q0 l IH]; simpl; intros fs fs' q H Hq; [done|].
  destruct Hq as [->|Hq].
  - destruct (fs !! q) as [eq|] eqn:Eq.
    + destruct (is_dir eq) eqn:Ed; [|done].
      eapply make_dirs_isdir; [exact H|]. unfold FS.isdir. by rewrite Eq.
    + eapply make_dirs_isdir; [exact H|]. unfold FS.isdir. by rewrite put_eq.
  - destruct (fs !! q0) as [eq|]; [destruct (is_dir eq); [|done]|]; eauto.
Qed.

Lemma make_dirs_done env l : forall fs,
  (forall q, In q l -> FS.isdir fs q = true) -> FS.make_dirs env fs l = Some fs.
Proof.
  induction l as [|q l IH]; simpl; intros fs H; [done|].
  pose proof (H q (or_introl eq_refl)) as Hq. unfold FS.isdir in Hq.
  destruct (fs !! q) as [eq|]; [|done]. rewrite Hq. apply IH. auto.
Qed.

End FileOps.

(** ** Counting files *)

Section FileCount.
Implicit Types (fs : fsys) (p q root : path) (e : entry).

Lemma files_under_touch env fs d root :
  FS.files_under (FS.touch env fs d) root = FS.files_under fs root.
Proof.
  unfold FS.touch. destruct (fs !! d) as [e|] eqn:E; [|done].
  destruct (is_dir e) eqn:Ed; [|done].
  unfold FS.files_under. apply map_filter_insert_not'.
  - intros [_ H]. done.
  - intros y Hy [_ H]. congruence.
Qed.

Lemma files_under_put_dir env fs root q e :
  is_dir e = true -> fs !! q = None ->
  FS.files_under (FS.put env fs q e) root = FS.files_under fs root.
Proof.
  intros He Hq. unfold FS.put, FS.exists_. rewrite Hq.
  rewrite <- (files_under_touch env fs (Path.parent q) root).
  unfold FS.files_under. apply map_filter_insert_not'.
  - intros [_ H]. congruence.
  - intros y Hy [_ H].
    destruct (decide (q = Path.parent q)) as [E|Hne].
    + unfold FS.touch in Hy. rewrite <- E, Hq in Hy. congruence.
    + rewrite touch_ne in Hy by done. congruence.
Qed.

Lemma make_dirs_files_under env l : forall fs fs' root,
  FS.make_dirs env fs l = Some fs' ->
  FS.files_under fs' root = FS.files_under fs root.
Proof.
  induction l as [|q l IH]; simpl; intros fs fs' root H.
  - by injection H as <-.
  - destruct (fs !! q) as [e|] eqn:Eq.
    + destruct (is_dir e); [eauto|done].
    + rewrite (IH _ _ _ H). by apply files_under_put_dir.
Qed.

Lemma count_files_mkdir_p env fs fs' p root :
  FS.mkdir_p env fs p = Some fs' -> count_files fs' root = count_files fs root.
Proof.
  unfold FS.mkdir_p, count_files. intros H.
  by rewrite (make_dirs_files_under _ _ _ _ root H).
Qed.

(** Writing one regular file adds at most one to the count. *)
Lemma count_files_insert fs root q e :
  count_files (<[q := e]> fs) root <= count_files fs root + 1.
Proof.
  unfold count_files, FS.files_under.
  rewrite map_filter_insert. case_decide.
  - rewrite map_size_insert. destruct (filter _ fs !! q); simpl; lia.
  - rewrite map_filter_delete, map_size_delete.
    destruct (filter _ fs !! q); simpl; lia.
Qed.

Lemma count_files_put env fs root q e :
  count_files (FS.put env fs q e) root <= count_files fs root + 1.
Proof.
  unfold FS.put. etransitivity; [apply count_files_insert|].
  destruct (FS.exists_ fs q); [done|].
  unfold count_files. by rewrite files_under_touch.
Qed.

Lemma count_files_copy2 env fs fs' root a b :
  FS.copy2 env fs a b = Some fs' -> count_files fs' root <= count_files fs root + 1.
Proof.
  unfold FS.copy2. intros H.
  destruct (fs !! a) as [e|]; [|done]. destruct (is_dir e); [done|].
  repeat case_match; try done; injection H as <-; apply count_files_put.
Qed.

Lemma count_files_write_json env fs fs' root p doc :
  FS.write_json env fs p doc = Some fs' ->
  count_files fs' root <= count_files fs root + 1.
Proof.
  unfold FS.write_json. intros H.
  repeat case_match; try done; injection H as <-; apply count_files_put.
Qed.

Lemma count_files_copy_to_site env fs fs' source dst_d site rel stale root :
  copy_to_site env fs source dst_d site = Some (fs', rel, stale) ->
  count_files fs' root <= count_files fs root + (if stale then 1 else 0).
Proof.
  unfold copy_to_site. intros H.
  destruct (FS.mkdir_p env fs dst_d) as [fs1|] eqn:E1; [|done]. simpl in H.
  rewrite <- (count_files_mkdir_p _ _ _ _ root E1).
  match type of H with
  | context [mbind _ ?m] => destruct m as [st|] eqn:Est; [|done]
  end.
  simpl in H. destruct st.
  - destruct (FS.copy2 env fs1 source (Path.join dst_d (Path.name source)))
      as [fs2|] eqn:E2; [|done].
    simpl in H. destruct (Path.relative_to _ _); [|done]. simpl in H.
    injection H as <- <- <-. by eapply count_files_copy2.
  - simpl in H. destruct (Path.relative_to _ _); [|done]. simpl in H.
    injection H as <- <- <-. lia.
Qed.

Lemma count_files_materialize env site root selected : forall fs fs' its flags,
  materialize env fs site selected = Some (fs', its, flags) ->
  count_files fs' root <= count_files fs root + Z.of_nat (length selected)
  /\ length its = length selected /\ length flags = length selected.
Proof.
  induction selected as [|c rest IH]; simpl; intros fs fs' its flags H.
  - injection H as <- <- <-. repeat split; lia.
  - destruct (copy_to_site env fs (src c) (dst_dir c) site)
      as [[[fs1 rel] st]|] eqn:E1; [|done].
    simpl in H.
    destruct (materialize env fs1 site rest) as [[[fs2 its2] fl2]|] eqn:E2; [|done].
    simpl in H. injection H as <- <- <-.
    apply (count_files_copy_to_site _ _ _ _ _ _ _ _ root) in E1.
    destruct (IH _ _ _ _ E2) as (H1 & H2 & H3). simpl.
    repeat split; try lia. destruct st; lia.
Qed.

End FileCount.

(** ** Runs of [main] *)

Section Runs.
Implicit Types (fs : fsys) (a : args) (r : run).

(** A run that found candidates. *)
Lemma main_nonempty env a fs fs1 cands r :
  FS.exists_ fs (Path.join (site_dir a) "index.html") = true ->
  FS.mkdir_p env fs (Path.join (site_dir a) "images") = Some fs1 ->
  discover a fs1 (Path.join (site_dir a) "images") = Some cands ->
  cands <> [] ->
  main env a fs = Some r ->
  selected r = chosen_of a fs1 cands /\ exit_code r = 0
  /\ (if dry_run a
      then fs_after r = fs1 /\ copied r = [] /\ written r = None
      else exists fs2 its flags,
        materialize env fs1 (site_dir a) (chosen_of a fs1 cands) = Some (fs2, its, flags)
        /\ copied r = flags
        /\ written r = Some (Manifest (stamp env) (benchmarks_of its) its)
        /\ FS.write_json env fs2 (Path.join (site_dir a) "manifest.json")
             (manifest_json (Manifest (stamp env) (benchmarks_of its) its))
           = Some (fs_after r)).
Proof.
  intros Hidx Hmk Hdisc Hne. unfold main. rewrite Hidx. simpl.
  rewrite Hmk. simpl. rewrite Hdisc. simpl.
  destruct (Z.eqb_spec (Z.of_nat (length cands)) 0) as [E|_].
  { destruct cands; [done|]. simpl in E. lia. }
  fold (chosen_of a fs1 cands).
  destruct (dry_run a).
  - intros [= <-]. simpl. done.
  - destruct (materialize env fs1 (site_dir a) (chosen_of a fs1 cands))
      as [[[fs2 its] flags]|] eqn:Em; [|done].
    simpl.
    destruct (FS.write_json env fs2 _ _) as [fs3|] eqn:Ew; [|done].
    simpl. intros [= <-]. simpl. repeat split. eauto 10.
Qed.

Lemma slice_to_nonneg {A} k (l : list A) :
  0 <= k -> slice_to k l = firstn (Z.to_nat k) l.
Proof. unfold slice_to. intros H. by destruct (Z.leb_spec 0 k); [|lia]. Qed.

Lemma firstn_min_len {A} n (l : list A) :
  firstn (n `min` length l) l = firstn n l.
Proof.
  destruct (Nat.le_gt_cases n (length l)).
  - by rewrite Nat.min_l.
  - rewrite Nat.min_r by lia. by rewrite !firstn_all2 by lia.
Qed.

Lemma effective_limit_spec m b e :
  effective_limit m b e = Z.min m (Z.max 0 (b - e)).
Proof. unfold effective_limit. destruct (Z.ltb_spec (b - e) 0); lia. Qed.

(** X2.  In a run that found candidates and was given a non-negative
    item cap, the number of selected candidates is
    min(max_items, max(0, file_budget - existing_files), total_candidates),
    where existing_files counts the regular files below the site root when
    the tool starts, and the selection is the prefix of that length of the
    sorted candidate list. *)
Theorem main_selected_count env a fs fs1 cands r :
  FS.exists_ fs (Path.join (site_dir a) "index.html") = true ->
  FS.mkdir_p env fs (Path.join (site_dir a) "images") = Some fs1 ->
  discover a fs1 (Path.join (site_dir a) "images") = Some cands ->
  cands <> [] ->
  0 <= max_items a ->
  main env a fs = Some r ->
  let k := Z.min (max_items a)
             (Z.min (Z.max 0 (file_budget a - count_files fs (site_dir a)))
                (Z.of_nat (length cands))) in
  Z.of_nat (length (selected r)) = k
  /\ selected r = firstn (Z.to_nat k) (sort_candidates cands).
Proof.
  intros Hidx Hmk Hdisc Hne Hmax Hrun k.
  destruct (main_nonempty _ _ _ _ _ _ Hidx Hmk Hdisc Hne Hrun) as (-> & _).
  unfold chosen_of. rewrite (count_files_mkdir_p _ _ _ _ _ Hmk).
  rewrite effective_limit_spec.
  set (lim := Z.min (max_items a) (Z.max 0 (file_budget a - count_files fs (site_dir a)))).
  assert (0 <= lim) by (unfold lim; lia).
  rewrite slice_to_nonneg by done.
  assert (Hlen : length (sort_candidates cands) = length cands)
    by (apply Permutation_length, sort_candidates_perm).
  split.
  - rewrite length_firstn, Hlen. unfold k. fold lim. lia.
  - assert (Hk : Z.to_nat k = (Z.to_nat lim `min` length (sort_candidates cands))%nat)
      by (rewrite Hlen; unfold k; fold lim; lia).
    rewrite Hk. symmetry. apply firstn_min_len.
Qed.


Lemma some_default {A} (o : option A) (d : A) :
  is_some o = true -> o = Some (default d o).
Proof. by destruct o. Qed.

Lemma main_selected_count_witness :
  let a := Demo.with_limits 4 5 Demo.cmd in
  main Demo.env a Demo.disk = Some (DemoRuns.outcome a Demo.disk)
  /\ Z.of_nat (length (selected (DemoRuns.outcome a Demo.disk))) = 3
  /\ selected (DemoRuns.outcome a Demo.disk)
     = firstn 3 (sort_candidates (DemoRuns.found a)).
Proof.
  intros a.
  assert (H1 : FS.exists_ Demo.disk (Path.join (site_dir a) "index.html") = true)
    by (vm_compute; reflexivity).
  assert (H2 : FS.mkdir_p Demo.env Demo.disk (Path.join (site_dir a) "images")
               = Some DemoRuns.prepared)
    by (apply some_default; vm_compute; reflexivity).
  assert (H3 : discover a DemoRuns.prepared (Path.join (site_dir a) "images")
               = Some (DemoRuns.found a))
    by (apply some_default; vm_compute; reflexivity).
  assert (H4 : DemoRuns.found a <> [])
    by (intros E; apply (f_equal length) in E; vm_compute in E; discriminate).
  assert (H5 : 0 <= max_items a) by (vm_compute; discriminate).
  assert (H6 : main Demo.env a Demo.disk = Some (DemoRuns.outcome a Demo.disk))
    by (apply some_default; vm_compute; reflexivity).
  destruct (main_selected_count Demo.env a Demo.disk DemoRuns.prepared
              (DemoRuns.found a) (DemoRuns.outcome a Demo.disk)
              H1 H2 H3 H4 H5 H6) as [Ha Hb].
  split; [exact H6|]. split.
  - etransitivity; [exact Ha|]. vm_compute. reflexivity.
  - etransitivity; [exact Hb|]. f_equal; vm_compute; reflexivity.
Defined.

End Runs.

(** ** The global order of the selection *)

Lemma same_key_sort_key (z c : candidate) :
  bool_decide (sort_key c = sort_key z) = same_key z c.
Proof.
  unfold same_key, sort_key. apply bool_decide_ext. split.
  - by intros [= -> -> -> ->].
  - by intros (-> & -> & -> & ->).
Qed.

(** C2.  In a run that finds candidates, the list from which the
    selection is cut is a rearrangement of the discovered list, which is
    the candidates of the first benchmark followed by those of the second:
    every candidate stands in front of all candidates whose key
    (iteration rank, sub-unit rank, modification time, benchmark) is
    smaller, the keys being compared component by component, larger
    first.  This order on keys is total, and candidates with the same
    key keep the order in which they were discovered.  The ranking
    depends on the discovered list only: any other run of the same
    command line that discovers the same list, at another time and in
    another state of the file system, cuts its selection from the same
    list. *)
Theorem C2_global_order env a fs fs1 cands r :
  FS.exists_ fs (Path.join (site_dir a) "index.html") = true ->
  FS.mkdir_p env fs (Path.join (site_dir a) "images") = Some fs1 ->
  discover a fs1 (Path.join (site_dir a) "images") = Some cands ->
  cands <> [] ->
  main env a fs = Some r ->
  exists ranked,
    (forall rg rd g d,
       geneval_root a = Some rg -> dpg_root a = Some rd ->
       crawl_geneval_candidates fs1 rg (Path.join (site_dir a) "images")
         (infer_model rg (model_arg a)) (latest_iters a) = Some g ->
       crawl_dpg_candidates fs1 rd (Path.join (site_dir a) "images")
         (infer_model rd (model_arg a)) (latest_iters a) = Some d ->
       cands = g ++ d)
    /\ ranked ≡ₚ cands
    /\ StronglySorted
         (fun c d => key_ge (iter_num c, sub_num c, mtime c, benchmark c)
                       (iter_num d, sub_num d, mtime d, benchmark d)) ranked
    /\ (forall k1 k2, key_ge k1 k2 \/ key_ge k2 k1)
    /\ (forall k1 k2, key_ge k1 k2 -> key_ge k2 k1 -> k1 = k2)
    /\ (forall z, List.filter (same_key z) ranked = List.filter (same_key z) cands)
    /\ selected r
       = slice_to (Z.min (max_items a)
                     (Z.max 0 (file_budget a - count_files fs (site_dir a)))) ranked
    /\ (forall env' fs' fs1' r',
          FS.exists_ fs' (Path.join (site_dir a) "index.html") = true ->
          FS.mkdir_p env' fs' (Path.join (site_dir a) "images") = Some fs1' ->
          discover a fs1' (Path.join (site_dir a) "images") = Some cands ->
          main env' a fs' = Some r' ->
          selected r'
          = slice_to (Z.min (max_items a)
                        (Z.max 0 (file_budget a - count_files fs' (site_dir a)))) ranked).
Proof.
  intros Hidx Hmk Hd Hne Hrun. exists (sort_candidates cands).
  split; [|split; [|split; [|split; [|split; [|split]]]]].
  - intros rg rd g d Hg Hdp Eg Ed. unfold discover in Hd.
    rewrite Hg, Hdp, Eg, Ed in Hd. simpl in Hd. by injection Hd as <-.
  - apply sort_candidates_perm.
  - apply sort_candidates_sorted.
  - apply key_ge_total.
  - apply key_ge_antisym.
  - intros z. rewrite <- !(List.filter_ext _ _ (same_key_sort_key z)).
    apply sort_candidates_stable.
  - split.
    + destruct (main_nonempty _ _ _ _ _ _ Hidx Hmk Hd Hne Hrun) as (-> & _).
      unfold chosen_of.
      by rewrite effective_limit_spec, (count_files_mkdir_p _ _ _ _ _ Hmk).
    + intros env' fs' fs1' r' Hidx' Hmk' Hd' Hrun'.
      destruct (main_nonempty _ _ _ _ _ _ Hidx' Hmk' Hd' Hne Hrun') as (-> & _).
      unfold chosen_of.
      by rewrite effective_limit_spec, (count_files_mkdir_p _ _ _ _ _ Hmk').
Qed.

Lemma C2_global_order_witness :
  exists ranked,
    ranked ≡ₚ DemoRuns.found Demo.cmd
    /\ selected (DemoRuns.outcome Demo.cmd Demo.disk)
       = slice_to (Z.min (max_items Demo.cmd)
                     (Z.max 0 (file_budget Demo.cmd
                               - count_files Demo.disk (site_dir Demo.cmd)))) ranked.
Proof.
  destruct (C2_global_order Demo.env Demo.cmd Demo.disk DemoRuns.prepared
              (DemoRuns.found Demo.cmd) (DemoRuns.outcome Demo.cmd Demo.disk))
    as (ranked & _ & Hp & _ & _ & _ & _ & Hsel & _).
  - vm_compute; reflexivity.
  - apply some_default; vm_compute; reflexivity.
  - apply some_default; vm_compute; reflexivity.
  - intros E; apply (f_equal length) in E; vm_compute in E; discriminate.
  - apply some_default; vm_compute; reflexivity.
  - exists ranked. split; [exact Hp|exact Hsel].
Defined.

(** ** What [parse_int] accepts *)

(** X1.  [parse_int] returns the integer [n] exactly when the name is,
    between optional white space, an optional sign followed by decimal
    digits in which single underscores may stand between digits, [n] being
    the signed decimal value of the digits; every other name gives
    [None].  The white space is that of [int]: the code points 9 to 13,
    32, 133 and 160, and not the separators 28 to 31 that [str.strip]
    removes. *)
Theorem parse_int_grammar (s : string) (n : Z) :
  parse_int s = Some n <-> int_literal s n.
Proof. apply parse_int_literal. Qed.

(** ** The outcomes of [main] *)

Section Outcomes.
Implicit Types (fs : fsys) (a : args) (r : run).

(** Every run that ends without an escaped exception takes one of three
    ways: no entry page, no candidate, or the selection. *)
Lemma main_cases env a fs r :
  main env a fs = Some r ->
  (FS.exists_ fs (Path.join (site_dir a) "index.html") = false
   /\ r = Run 2 fs [ErrNoIndex (site_dir a)] [] [] None)
  \/ (FS.exists_ fs (Path.join (site_dir a) "index.html") = true
      /\ exists fs1 cands,
           FS.mkdir_p env fs (Path.join (site_dir a) "images") = Some fs1
           /\ discover a fs1 (Path.join (site_dir a) "images") = Some cands
           /\ ((cands = []
                /\ exists fs2,
                     FS.write_json env fs1 (Path.join (site_dir a) "manifest.json")
                       (manifest_json (Manifest (stamp env) [] [])) = Some fs2
                     /\ r = Run 0 fs2 [OkNothing] [] [] (Some (Manifest (stamp env) [] [])))
               \/ cands <> [])).
Proof.
  unfold main.
  destruct (FS.exists_ fs (Path.join (site_dir a) "index.html")) eqn:Hidx; simpl.
  2: { intros [= <-]. by left. }
  intros H. right. split; [done|].
  destruct (FS.mkdir_p env fs (Path.join (site_dir a) "images")) as [fs1|] eqn:Hmk;
    [|done].
  simpl in H.
  destruct (discover a fs1 (Path.join (site_dir a) "images")) as [cands|] eqn:Hd;
    [|done].
  simpl in H. exists fs1, cands. split; [done|]. split; [done|].
  destruct cands as [|c cands]; [|by right]. left. split; [done|].
  simpl in H.
  destruct (FS.write_json env fs1 _ _) as [fs2|] eqn:Hw; [|done].
  simpl in H. injection H as <-. eauto.
Qed.

Lemma copies_cons b flags :
  copies (b :: flags) = (if b then 1 else 0) + copies flags.
Proof. unfold copies. simpl. destruct b; simpl; lia. Qed.

Lemma copies_le flags : 0 <= copies flags <= Z.of_nat (length flags).
Proof.
  unfold copies. split; [lia|]. apply inj_le, filter_length_le.
Qed.

Lemma count_files_materialize_copies env site root selected : forall fs fs' its flags,
  materialize env fs site selected = Some (fs', its, flags) ->
  count_files fs' root <= count_files fs root + copies flags.
Proof.
  induction selected as [|c rest IH]; simpl; intros fs fs' its flags H.
  - injection H as <- <- <-. unfold copies. simpl. lia.
  - destruct (copy_to_site env fs (src c) (dst_dir c) site)
      as [[[fs1 rel] st]|] eqn:E1; [|done].
    simpl in H.
    destruct (materialize env fs1 site rest) as [[[fs2 its2] fl2]|] eqn:E2; [|done].
    simpl in H. injection H as <- <- <-.
    apply (count_files_copy_to_site _ _ _ _ _ _ _ _ root) in E1.
    specialize (IH _ _ _ _ E2). rewrite copies_cons. lia.
Qed.

(** X4.  A run adds at most one regular file below the site directory for
    each copy it makes, and one more for the manifest; with a non-negative
    item cap the count therefore ends at most one above the larger of the
    file budget and the count at the start. *)
Theorem main_file_count env a fs r :
  main env a fs = Some r ->
  count_files (fs_after r) (site_dir a)
    <= count_files fs (site_dir a) + copies (copied r) + 1
  /\ (0 <= max_items a ->
      count_files (fs_after r) (site_dir a)
        <= Z.max (file_budget a) (count_files fs (site_dir a)) + 1).
Proof.
  intros Hrun.
  destruct (main_cases _ _ _ _ Hrun)
    as [[_ ->]|(Hidx & fs1 & cands & Hmk & Hd & [(-> & fs2 & Hw & ->)|Hne])]; simpl.
  - unfold copies. simpl. lia.
  - apply (count_files_write_json _ _ _ (site_dir a)) in Hw.
    rewrite (count_files_mkdir_p _ _ _ _ _ Hmk) in Hw.
    unfold copies. simpl. lia.
  - destruct (main_nonempty _ _ _ _ _ _ Hidx Hmk Hd Hne Hrun) as (Hsel & _ & Hrest).
    pose proof (count_files_mkdir_p _ _ _ _ (site_dir a) Hmk) as Hc.
    destruct (dry_run a).
    + destruct Hrest as (-> & -> & _). unfold copies. simpl. lia.
    + destruct Hrest as (fs2 & its & flags & Hm & -> & _ & Hw).
      apply (count_files_write_json _ _ _ (site_dir a)) in Hw.
      pose proof (count_files_materialize_copies _ _ (site_dir a) _ _ _ _ _ Hm) as H1.
      split; [lia|]. intros Hmax.
      destruct (count_files_materialize _ _ (site_dir a) _ _ _ _ _ Hm) as (_ & _ & Hlen).
      pose proof (copies_le flags) as Hcp.
      assert (Z.of_nat (length (chosen_of a fs1 cands))
              <= Z.max 0 (file_budget a - count_files fs1 (site_dir a))).
      { unfold chosen_of. rewrite effective_limit_spec.
        rewrite slice_to_nonneg by lia. rewrite length_firstn. lia. }
      lia.
Qed.

Lemma main_file_count_witness :
  let a := Demo.with_limits 4 5 Demo.cmd in
  main Demo.env a Demo.disk = Some (DemoRuns.outcome a Demo.disk)
  /\ count_files (fs_after (DemoRuns.outcome a Demo.disk)) (site_dir a) <= 6.
Proof.
  intros a.
  assert (H : main Demo.env a Demo.disk = Some (DemoRuns.outcome a Demo.disk))
    by (apply some_default; vm_compute; reflexivity).
  split; [exact H|].
  destruct (main_file_count Demo.env a Demo.disk _ H) as [_ Hb].
  eapply Z.le_trans; [apply Hb|]; vm_compute; discriminate.
Defined.

(** X7.  The exit code is 2 exactly when the site directory has no
    [index.html], and then nothing is read further, nothing is written
    and nothing is selected; every other run that ends exits with 0. *)
Theorem main_exit_code env a fs r :
  main env a fs = Some r ->
  (exit_code r = 2 <-> FS.exists_ fs (Path.join (site_dir a) "index.html") = false)
  /\ (exit_code r = 0 <-> FS.exists_ fs (Path.join (site_dir a) "index.html") = true)
  /\ (exit_code r = 2 ->
      fs_after r = fs /\ written r = None /\ selected r = [] /\ copied r = []
      /\ printed r = [ErrNoIndex (site_dir a)]).
Proof.
  intros Hrun.
  destruct (main_cases _ _ _ _ Hrun)
    as [[Hidx ->]|(Hidx & fs1 & cands & Hmk & Hd & [(-> & fs2 & Hw & ->)|Hne])];
    simpl; rewrite Hidx.
  - repeat split; done.
  - repeat split; done.
  - destruct (main_nonempty _ _ _ _ _ _ Hidx Hmk Hd Hne Hrun) as (_ & -> & _).
    repeat split; done.
Qed.

Lemma main_exit_code_witness :
  exit_code (DemoRuns.outcome Demo.cmd Demo.disk) = 0.
Proof.
  assert (H : main Demo.env Demo.cmd Demo.disk
              = Some (DemoRuns.outcome Demo.cmd Demo.disk))
    by (apply some_default; vm_compute; reflexivity).
  destruct (main_exit_code Demo.env Demo.cmd Demo.disk _ H) as (_ & [_ H0] & _).
  apply H0. vm_compute. reflexivity.
Defined.

(** X6.  When the crawl finds no candidate the tool says so, writes a
    manifest with the time of the run, no benchmarks and no items, and
    exits with 0, whether or not a dry run was asked for.  After the image
    directory was made nothing else changes but the time stamp of the
    site directory, which receives the file. *)
Theorem main_no_candidates env a fs fs1 r :
  FS.exists_ fs (Path.join (site_dir a) "index.html") = true ->
  FS.mkdir_p env fs (Path.join (site_dir a) "images") = Some fs1 ->
  discover a fs1 (Path.join (site_dir a) "images") = Some [] ->
  main env a fs = Some r ->
  let target := Path.join (site_dir a) "manifest.json" in
  let doc := JObj [("meta", JObj [("created_at", JStr (stamp env));
                                  ("benchmarks", JList [])]);
                   ("items", JList [])] in
  exit_code r = 0 /\ written r = Some (Manifest (stamp env) [] [])
  /\ selected r = [] /\ copied r = [] /\ printed r = [OkNothing]
  /\ fs_after r !! target
     = Some (Entry false (now env) (dumps_size env doc) (Some doc))
  /\ (forall p, p <> target -> p <> site_dir a -> fs_after r !! p = fs1 !! p)
  /\ FS.isdir (fs_after r) (site_dir a) = true.
Proof.
  intros Hidx Hmk Hd Hrun target doc.
  destruct (main_cases _ _ _ _ Hrun)
    as [[Hidx' _]|(_ & fs1' & cands & Hmk' & Hd' & Hcase)]; [congruence|].
  rewrite Hmk in Hmk'. injection Hmk' as <-.
  rewrite Hd in Hd'. injection Hd' as <-.
  destruct Hcase as [(_ & fs2 & Hw & ->)|Hne]; [|done]. simpl.
  unfold FS.write_json in Hw. fold target in Hw.
  destruct (FS.isdir fs1 target); [done|].
  destruct (FS.isdir fs1 (Path.parent target)) eqn:Hsite; [|done].
  injection Hw as <-.
  change (manifest_json (Manifest (stamp env) [] [])) with doc.
  assert (Hpar : Path.parent target = site_dir a)
    by (unfold target, Path.parent, Path.join; apply removelast_last).
  rewrite Hpar in Hsite.
  assert (Hne : site_dir a <> target).
  { intros E%(f_equal length). unfold target, Path.join in E.
    rewrite length_app in E. simpl in E. lia. }
  repeat split; try done.
  - apply put_eq.
  - intros p Hp Hs. apply put_ne; [done|by rewrite Hpar].
  - unfold FS.isdir in *. destruct (fs1 !! site_dir a) as [e|] eqn:E; [|done].
    destruct (put_kept env fs1 target
                (Entry false (now env) (dumps_size env doc) (Some doc))
                (site_dir a) e Hne E) as (e' & -> & K).
    unfold kept in K. by rewrite Hsite in K.
Qed.

Lemma main_no_candidates_witness :
  let a := Demo.with_dry_run (Demo.without_roots Demo.cmd) in
  written (DemoRuns.outcome a Demo.disk)
  = Some (Manifest (stamp Demo.env) [] []).
Proof.
  intros a.
  assert (H1 : FS.exists_ Demo.disk (Path.join (site_dir a) "index.html") = true)
    by (vm_compute; reflexivity).
  assert (H2 : FS.mkdir_p Demo.env Demo.disk (Path.join (site_dir a) "images")
               = Some DemoRuns.prepared)
    by (apply some_default; vm_compute; reflexivity).
  assert (H3 : discover a DemoRuns.prepared (Path.join (site_dir a) "images")
               = Some []) by reflexivity.
  assert (H4 : main Demo.env a Demo.disk = Some (DemoRuns.outcome a Demo.disk))
    by (apply some_default; vm_compute; reflexivity).
  exact (proj1 (proj2 (main_no_candidates Demo.env a Demo.disk DemoRuns.prepared
                         _ H1 H2 H3 H4))).
Defined.

Lemma preview_lines_imap l : forall i,
  preview_lines i l
  = imap (fun j c => Preview (S (i + j)) (benchmark c) (iter_dir c) (sub_dir c) (src c)) l.
Proof.
  induction l as [|c l IH]; intros i; simpl; [done|].
  rewrite Nat.add_0_r. f_equal. rewrite IH. apply imap_ext.
  intros j x _. simpl. by rewrite Nat.add_succ_r.
Qed.

(** X5.  A dry run that found candidates copies nothing and writes no
    manifest.  It leaves every regular file as it was, makes no regular
    file, and leaves every directory a directory (it may make the image
    directory).  It prints the summary line with the number of
    candidates, the files counted, the budget, the item cap, the
    effective limit and the number selected, then the first ten selected
    candidates, numbered from 1, and the closing line, and exits with
    0. *)
Theorem main_dry_run env a fs fs1 cands r :
  FS.exists_ fs (Path.join (site_dir a) "index.html") = true ->
  FS.mkdir_p env fs (Path.join (site_dir a) "images") = Some fs1 ->
  discover a fs1 (Path.join (site_dir a) "images") = Some cands ->
  cands <> [] ->
  dry_run a = true ->
  main env a fs = Some r ->
  copied r = [] /\ written r = None /\ exit_code r = 0
  /\ (forall p e, is_dir e = false -> fs_after r !! p = Some e <-> fs !! p = Some e)
  /\ (forall p, FS.isdir fs p = true -> FS.isdir (fs_after r) p = true)
  /\ printed r
     = Info (Z.of_nat (length cands)) (count_files fs (site_dir a)) (file_budget a)
         (max_items a)
         (Z.min (max_items a) (Z.max 0 (file_budget a - count_files fs (site_dir a))))
         (length (selected r))
       :: imap (fun i c => Preview (S i) (benchmark c) (iter_dir c) (sub_dir c) (src c))
            (firstn 10 (selected r))
       ++ [DryRun].
Proof.
  intros Hidx Hmk Hd Hne Hdry Hrun.
  destruct (main_nonempty _ _ _ _ _ _ Hidx Hmk Hd Hne Hrun) as (Hsel & Hex & Hrest).
  rewrite Hdry in Hrest. destruct Hrest as (Hfs & Hcp & Hw).
  split; [done|]. split; [done|]. split; [done|].
  split; [|split].
  - intros p e He. rewrite Hfs. by apply (make_dirs_file _ _ _ _ _ _ Hmk).
  - intros p Hp. rewrite Hfs. by apply (make_dirs_isdir _ _ _ _ _ Hmk).
  - rewrite Hsel. revert Hrun. unfold main. rewrite Hidx. simpl. rewrite Hmk. simpl.
    rewrite Hd. simpl.
    destruct (Z.eqb_spec (Z.of_nat (length cands)) 0) as [E|_].
    { destruct cands; [done|]. simpl in E. lia. }
    rewrite Hdry. fold (chosen_of a fs1 cands). intros [= <-]. cbn [printed].
    rewrite effective_limit_spec, (count_files_mkdir_p _ _ _ _ _ Hmk).
    rewrite preview_lines_imap, slice_to_nonneg by lia.
    replace (Z.to_nat 10) with 10%nat by lia. done.
Qed.

Lemma main_dry_run_witness :
  let a := Demo.with_dry_run Demo.cmd in
  written (DemoRuns.outcome a Demo.disk) = None
  /\ copied (DemoRuns.outcome a Demo.disk) = [].
Proof.
  intros a.
  assert (H1 : FS.exists_ Demo.disk (Path.join (site_dir a) "index.html") = true)
    by (vm_compute; reflexivity).
  assert (H2 : FS.mkdir_p Demo.env Demo.disk (Path.join (site_dir a) "images")
               = Some DemoRuns.prepared)
    by (apply some_default; vm_compute; reflexivity).
  assert (H3 : discover a DemoRuns.prepared (Path.join (site_dir a) "images")
               = Some (DemoRuns.found a))
    by (apply some_default; vm_compute; reflexivity).
  assert (H4 : DemoRuns.found a <> [])
    by (intros E; apply (f_equal length) in E; vm_compute in E; discriminate).
  assert (H5 : dry_run a = true) by reflexivity.
  assert (H6 : main Demo.env a Demo.disk = Some (DemoRuns.outcome a Demo.disk))
    by (apply some_default; vm_compute; reflexivity).
  destruct (main_dry_run Demo.env a Demo.disk DemoRuns.prepared (DemoRuns.found a)
              _ H1 H2 H3 H4 H5 H6) as (Ha & Hb & _).
  split; [exact Hb | exact Ha].
Defined.

(** X3.  With a negative item cap the file budget plays no part: the
    slice [candidates[:max_items]] drops the last [-max_items] candidates
    of the sorted list and the rest is selected. *)
Theorem main_negative_cap env a fs fs1 cands r :
  FS.exists_ fs (Path.join (site_dir a) "index.html") = true ->
  FS.mkdir_p env fs (Path.join (site_dir a) "images") = Some fs1 ->
  discover a fs1 (Path.join (site_dir a) "images") = Some cands ->
  cands <> [] ->
  max_items a < 0 ->
  main env a fs = Some r ->
  selected r
  = firstn (length cands - Z.to_nat (- max_items a)) (sort_candidates cands)
  /\ Z.of_nat (length (selected r))
     = Z.max 0 (Z.of_nat (length cands) + max_items a).
Proof.
  intros Hidx Hmk Hd Hne Hneg Hrun.
  destruct (main_nonempty _ _ _ _ _ _ Hidx Hmk Hd Hne Hrun) as (-> & _).
  unfold chosen_of. rewrite effective_limit_spec.
  assert (Hlen : length (sort_candidates cands) = length cands)
    by (apply Permutation_length, sort_candidates_perm).
  replace (Z.min (max_items a) (Z.max 0 (file_budget a - count_files fs1 (site_dir a))))
    with (max_items a) by lia.
  unfold slice_to. destruct (Z.leb_spec 0 (max_items a)); [lia|].
  rewrite Hlen.
  replace (Z.to_nat (Z.of_nat (length cands) + max_items a))
    with (length cands - Z.to_nat (- max_items a))%nat by lia.
  split; [done|]. rewrite length_firstn, Hlen. lia.
Qed.

Lemma main_negative_cap_witness :
  let a := Demo.with_limits (-1) 0 Demo.cmd in
  length (selected (DemoRuns.outcome a Demo.disk)) = 4%nat.
Proof.
  intros a.
  assert (H1 : FS.exists_ Demo.disk (Path.join (site_dir a) "index.html") = true)
    by (vm_compute; reflexivity).
  assert (H2 : FS.mkdir_p Demo.env Demo.disk (Path.join (site_dir a) "images")
               = Some DemoRuns.prepared)
    by (apply some_default; vm_compute; reflexivity).
  assert (H3 : discover a DemoRuns.prepared (Path.join (site_dir a) "images")
               = Some (DemoRuns.found a))
    by (apply some_default; vm_compute; reflexivity).
  assert (H4 : DemoRuns.found a <> [])
    by (intros E; apply (f_equal length) in E; vm_compute in E; discriminate).
  assert (H5 : max_items a < 0) by reflexivity.
  assert (H6 : main Demo.env a Demo.disk = Some (DemoRuns.outcome a Demo.disk))
    by (apply some_default; vm_compute; reflexivity).
  destruct (main_negative_cap Demo.env a Demo.disk DemoRuns.prepared (DemoRuns.found a)
              _ H1 H2 H3 H4 H5 H6) as [_ Hb].
  apply Nat2Z.inj. etransitivity; [exact Hb|]. vm_compute. reflexivity.
Defined.

End Outcomes.

(** ** Listing a directory *)

Section Listing.
Implicit Types (fs : fsys) (p q folder : path).

Lemma In_filter {A} (f : A -> bool) (l : list A) x :
  In x (List.filter f l) <-> In x l /\ f x = true.
Proof. apply filter_In. Qed.

Lemma is_child_of_spec folder q :
  Path.is_child_of folder q = true <-> exists nm, q = Path.join folder nm.
Proof.
  unfold Path.is_child_of, Path.join, Path.parent. split.
  - destruct q as [|c q]; [done|]. intros H%bool_decide_eq_true.
    exists (List.last (c :: q) ""). rewrite <- H.
    apply app_removelast_last. done.
  - intros [nm ->]. destruct (folder ++ [nm]) eqn:E.
    { by destruct folder. }
    rewrite <- E. apply bool_decide_eq_true. apply removelast_last.
Qed.

Lemma name_join folder nm : Path.name (Path.join folder nm) = nm.
Proof. unfold Path.name, Path.join. apply last_last. Qed.

Lemma parent_join folder nm : Path.parent (Path.join folder nm) = folder.
Proof. unfold Path.parent, Path.join. apply removelast_last. Qed.

(** What [iterdir] lists: the paths present in the file system that are
    children of the directory, each once. *)
Lemma iterdir_spec fs p l :
  FS.iterdir fs p = Some l <->
  FS.isdir fs p = true
  /\ l = List.filter (Path.is_child_of p) (map fst (map_to_list fs)).
Proof.
  unfold FS.iterdir. destruct (FS.isdir fs p); split.
  - intros [= <-]. done.
  - intros [_ ->]. done.
  - done.
  - intros [? _]. done.
Qed.

Lemma In_iterdir fs p l q :
  FS.iterdir fs p = Some l ->
  In q l <-> FS.exists_ fs q = true /\ Path.is_child_of p q = true.
Proof.
  intros [_ ->]%iterdir_spec. rewrite In_filter, in_map_iff.
  unfold FS.exists_. split.
  - intros [[[q' e] [<- Hin]] Hc]. split; [|done]. simpl.
    apply list_elem_of_In, elem_of_map_to_list in Hin. by rewrite Hin.
  - intros [He Hc]. split; [|done].
    destruct (fs !! q) as [e|] eqn:E; [|done].
    exists (q, e). split; [done|].
    by apply list_elem_of_In, elem_of_map_to_list.
Qed.

Lemma NoDup_iterdir fs p l : FS.iterdir fs p = Some l -> List.NoDup l.
Proof.
  intros [_ ->]%iterdir_spec. apply List.NoDup_filter.
  apply NoDup_ListNoDup, NoDup_fst_map_to_list.
Qed.

Lemma In_glob_suffix fs folder suffix q :
  In q (FS.glob_suffix fs folder suffix) <->
  FS.isdir fs folder = true /\ FS.exists_ fs q = true
  /\ Path.is_child_of folder q = true
  /\ PyStr.ends_with suffix (Path.name q) = true.
Proof.
  unfold FS.glob_suffix.
  destruct (FS.iterdir fs folder) as [l|] eqn:E.
  - rewrite In_filter, (In_iterdir _ _ _ _ E).
    apply iterdir_spec in E as [Hd _]. tauto.
  - unfold FS.iterdir in E. destruct (FS.isdir fs folder); [done|].
    simpl. split; [done|]. intros [? _]. done.
Qed.

Lemma path_ltb_siblings folder a b :
  path_ltb (Path.join folder a) (Path.join folder b) = PyStr.ltb a b.
Proof.
  unfold Path.join. induction folder as [|c folder IH]; simpl.
  - destruct (PyStr.ltb a b); [done|]. by destruct (String.eqb a b).
  - by rewrite ltb_irrefl, String.eqb_refl.
Qed.

(** The first element of a sorted list is a least one. *)
Lemma py_sort_head {A K} (key : A -> K) (lt : K -> K -> bool) rev l x rest :
  strict_weak lt ->
  py_sort key lt rev l = x :: rest ->
  In x l /\ forall y, In y l -> stays_before key lt rev y x = false.
Proof.
  intros Hlt Hs.
  pose proof (py_sort_perm key lt rev l) as Hp.
  pose proof (py_sort_sorted key lt Hlt rev l) as Hsorted.
  rewrite Hs in Hp, Hsorted. split.
  - apply list_elem_of_In. rewrite <- Hp. left.
  - intros y Hy%list_elem_of_In. rewrite <- Hp in Hy.
    apply StronglySorted_inv in Hsorted as [_ Hall].
    apply elem_of_cons in Hy as [->|Hy].
    + unfold stays_before. destruct Hlt as [Hi _ _]. destruct rev; apply Hi.
    + rewrite Forall_forall in Hall. by apply Hall.
Qed.

(** X10.  [first_jpg] returns the entry of the folder whose name ends in
    [.jpg] and comes first in the order of the names, whatever kind of
    entry it is; it returns nothing exactly when the folder is not a
    directory or holds no such name. *)
Theorem first_jpg_least fs folder :
  (forall j, first_jpg fs folder = Some j ->
     FS.isdir fs folder = true /\ FS.exists_ fs j = true
     /\ Path.parent j = folder
     /\ PyStr.ends_with ".jpg" (Path.name j) = true
     /\ forall nm, FS.exists_ fs (Path.join folder nm) = true ->
          PyStr.ends_with ".jpg" nm = true ->
          nm = Path.name j \/ PyStr.ltb (Path.name j) nm = true)
  /\ (first_jpg fs folder = None <->
      FS.isdir fs folder = false
      \/ forall nm, FS.exists_ fs (Path.join folder nm) = true ->
           PyStr.ends_with ".jpg" nm = false).
Proof.
  unfold first_jpg. split.
  - intros j.
    destruct (py_sort _ _ _ _) as [|x rest] eqn:Hs; [done|]. intros [= ->].
    destruct (py_sort_head _ _ _ _ _ _ path_ltb_strict_weak Hs) as [Hin Hmin].
    apply In_glob_suffix in Hin as (Hd & He & Hc & Hsuf).
    apply is_child_of_spec in Hc as [nmj ->].
    rewrite name_join, parent_join in *. repeat split; try done.
    intros nm Hnm Hjpg.
    assert (Hq : In (Path.join folder nm) (FS.glob_suffix fs folder ".jpg")).
    { apply In_glob_suffix. rewrite name_join. repeat split; try done.
      apply is_child_of_spec. eauto. }
    specialize (Hmin _ Hq). unfold stays_before in Hmin.
    rewrite path_ltb_siblings in Hmin.
    destruct (PyStr.ltb nmj nm) eqn:E; [by right|]. left.
    by apply ltb_total.
  - destruct (py_sort _ _ _ _) as [|x rest] eqn:Hs.
    + split; [|done]. intros _.
      destruct (FS.isdir fs folder) eqn:Hd; [right|by left].
      intros nm Hnm. destruct (PyStr.ends_with ".jpg" nm) eqn:Hjpg; [|done].
      assert (Hq : In (Path.join folder nm) (FS.glob_suffix fs folder ".jpg")).
      { apply In_glob_suffix. rewrite name_join. repeat split; try done.
        apply is_child_of_spec. eauto. }
      apply list_elem_of_In in Hq.
      rewrite <- (py_sort_perm (fun p => p) path_ltb false) in Hq.
      rewrite Hs in Hq. by apply elem_of_nil in Hq.
    + split; [done|].
      destruct (py_sort_head _ _ _ _ _ _ path_ltb_strict_weak Hs) as [Hin _].
      apply In_glob_suffix in Hin as (Hd & He & Hc & Hsuf).
      apply is_child_of_spec in Hc as [nmj ->]. rewrite name_join in Hsuf.
      intros [?|H]; [congruence|]. specialize (H _ He). congruence.
Qed.

End Listing.

(** ** The order of the directories *)

Section DirOrder.
Implicit Types (fs : fsys) (p q root : path).

Lemma py_sort_In {A K} (key : A -> K) (lt : K -> K -> bool) rev l x :
  In x (py_sort key lt rev l) <-> In x l.
Proof.
  rewrite <- !list_elem_of_In. by rewrite (py_sort_perm key lt rev l).
Qed.

Lemma py_sort_Z_sorted {A} (key : A -> Z) rev l :
  StronglySorted (fun x y => key_order rev (key x) (key y)) (py_sort key Z.ltb rev l).
Proof.
  eapply StronglySorted_weaken; [|apply (py_sort_sorted key Z.ltb Z_ltb_strict_weak)].
  intros x y. unfold in_order, stays_before, key_order.
  destruct rev; rewrite Z.ltb_ge; done.
Qed.

Lemma py_sort_NoDup {A K} (key : A -> K) (lt : K -> K -> bool) rev l :
  List.NoDup l -> List.NoDup (py_sort key lt rev l).
Proof.
  rewrite <- !NoDup_ListNoDup. by rewrite (py_sort_perm key lt rev l).
Qed.

Lemma iter_dirs_raises fs root reverse :
  iter_dirs_numeric_sorted fs root reverse = None <-> FS.isdir fs root = false.
Proof.
  unfold iter_dirs_numeric_sorted, FS.iterdir.
  destruct (FS.isdir fs root); simpl; split; done.
Qed.

Lemma In_iter_dirs_iff fs root reverse l q :
  iter_dirs_numeric_sorted fs root reverse = Some l ->
  In q l <-> FS.isdir fs q = true /\ Path.is_child_of root q = true.
Proof.
  unfold iter_dirs_numeric_sorted.
  destruct (FS.iterdir fs root) as [entries|] eqn:E; [|done].
  simpl. intros [= <-].
  rewrite in_app_iff, !py_sort_In, !In_filter.
  rewrite (In_iterdir _ _ _ _ E).
  unfold FS.isdir, FS.exists_.
  destruct (fs !! q) as [e|]; destruct (is_numeric q); simpl; intuition.
Qed.

(** X8.  [iter_dirs_numeric_sorted] raises exactly when the root is not a
    directory.  Otherwise its result holds each subdirectory of the root
    once and nothing else, the ones whose name [parse_int] accepts first,
    ordered by the integer, then the others, ordered by modification
    time, both ascending or, with [reverse], both descending. *)
Theorem iter_dirs_numeric_sorted_spec fs root reverse :
  (iter_dirs_numeric_sorted fs root reverse = None <-> FS.isdir fs root = false)
  /\ forall l, iter_dirs_numeric_sorted fs root reverse = Some l ->
       exists numeric nonnum,
         l = numeric ++ nonnum
         /\ Forall (fun p => is_numeric p = true) numeric
         /\ Forall (fun p => is_numeric p = false) nonnum
         /\ StronglySorted (fun p q => key_order reverse (int_name p) (int_name q)) numeric
         /\ StronglySorted
              (fun p q => key_order reverse (mtime_of fs p) (mtime_of fs q)) nonnum
         /\ List.NoDup l
         /\ forall q, In q l <->
              FS.isdir fs q = true /\ Path.is_child_of root q = true.
Proof.
  split; [apply iter_dirs_raises|].
  intros l Hl.
  pose proof (fun q => In_iter_dirs_iff fs root reverse l q Hl) as Hin. revert Hl Hin.
  unfold iter_dirs_numeric_sorted.
  - destruct (FS.iterdir fs root) as [entries|] eqn:E; [|done].
    simpl. intros [= <-] Hin.
    set (dirs := List.filter (FS.isdir fs) entries).
    assert (Hnd : List.NoDup dirs)
      by (apply List.NoDup_filter; by eapply NoDup_iterdir).
    eexists _, _. split; [reflexivity|].
    split; [|split; [|split; [|split; [|split]]]].
    + apply Forall_forall. intros p Hp%list_elem_of_In.
      apply py_sort_In, In_filter in Hp. tauto.
    + apply Forall_forall. intros p Hp%list_elem_of_In.
      apply py_sort_In, In_filter in Hp as [_ Hp].
      by apply negb_true_iff in Hp.
    + apply py_sort_Z_sorted.
    + apply py_sort_Z_sorted.
    + apply NoDup_ListNoDup, NoDup_app.
      split; [|split].
      * apply NoDup_ListNoDup, py_sort_NoDup, List.NoDup_filter, Hnd.
      * intros p Hp%list_elem_of_In Hq%list_elem_of_In.
        apply py_sort_In, In_filter in Hp as [_ Hp].
        apply py_sort_In, In_filter in Hq as [_ Hq].
        rewrite Hp in Hq. done.
      * apply NoDup_ListNoDup, py_sort_NoDup, List.NoDup_filter, Hnd.
    + intros q. apply Hin.
Qed.

Lemma iter_dirs_numeric_sorted_example :
  iter_dirs_numeric_sorted Demo.disk ["g"] true
  = Some [["g"; "10"]; ["g"; "9"]; ["g"; "-5"]; ["g"; "alpha"]].
Proof. vm_compute. reflexivity. Qed.

End DirOrder.

(** ** The crawlers *)

Section Crawlers.
Implicit Types (fs : fsys) (p q root iter sub jpg : path) (c : candidate).

Lemma mapM_concat_In {A B} (f : A -> option (list B)) l ls x :
  mapM f l = Some ls -> In x (List.concat ls) ->
  exists a ys, In a l /\ f a = Some ys /\ In x ys.
Proof.
  intros H%mapM_Some_1. induction H as [|a ys l ls Ha _ IH]; simpl; [done|].
  rewrite in_app_iff. intros [Hx|Hx].
  - exists a, ys. eauto.
  - destruct (IH Hx) as (a' & ys' & ? & ? & ?). exists a', ys'. eauto.
Qed.

Lemma In_latest li (iters : list path) p : In p (latest li iters) -> In p iters.
Proof.
  unfold latest, slice_to. destruct li as [n|]; [|done].
  destruct (0 <? n); [|done].
  destruct (0 <=? n); intros H%list_elem_of_In%elem_of_take; apply list_elem_of_In;
    by destruct H as (? & ?%list_elem_of_lookup_2 & _).
Qed.

Lemma In_iter_dirs fs root rev l q :
  iter_dirs_numeric_sorted fs root rev = Some l ->
  In q l -> FS.isdir fs q = true /\ exists nm, q = Path.join root nm.
Proof.
  intros H Hq.
  apply (In_iter_dirs_iff _ _ _ _ q H) in Hq as [? ?%is_child_of_spec]. done.
Qed.

Lemma leaf_candidate_inv fs images_out mdl bench iter sub leaf cs c :
  leaf_candidate fs images_out mdl bench iter sub leaf = Some cs ->
  In c cs ->
  cs = [c]
  /\ first_jpg fs leaf = Some (src c)
  /\ describes fs images_out mdl bench iter sub (src c) c.
Proof.
  unfold leaf_candidate, make_candidate.
  destruct (first_jpg fs leaf) as [jpg|]; [|by intros [= <-]].
  destruct (FS.stat fs jpg) as [e|] eqn:E; [|done]. simpl.
  intros [= <-] [<-|[]]. unfold describes. simpl.
  repeat split; eauto.
Qed.

(** Where the two crawlers look for the image of a sub-unit. *)
Lemma crawl_inv fs (body : path -> path -> option (list candidate)) root li cands c :
  crawl fs body root li = Some cands -> In c cands ->
  exists iter_nm sub_nm cs,
    FS.isdir fs (Path.join root iter_nm) = true
    /\ FS.isdir fs (Path.join (Path.join (Path.join root iter_nm) "generation") sub_nm)
       = true
    /\ body (Path.join root iter_nm)
         (Path.join (Path.join (Path.join root iter_nm) "generation") sub_nm) = Some cs
    /\ In c cs.
Proof.
  unfold crawl.
  destruct (iter_dirs_numeric_sorted fs root true) as [iters|] eqn:Hi; [|done].
  simpl. destruct (mapM (crawl_iter fs body) (latest li iters)) as [ls|] eqn:Hm; [|done].
  simpl. intros [= <-] Hc.
  destruct (mapM_concat_In _ _ _ _ Hm Hc) as (iter & ys & Hiter & Hy & Hcy).
  apply In_latest in Hiter.
  destruct (In_iter_dirs _ _ _ _ _ Hi Hiter) as [Hd [iter_nm ->]].
  unfold crawl_iter in Hy.
  destruct (FS.exists_ fs _); [|injection Hy as <-; done].
  unfold child_dirs_numeric_sorted in Hy.
  destruct (iter_dirs_numeric_sorted fs (Path.join (Path.join root iter_nm) "generation")
              true) as [subs|] eqn:Hs; [|done].
  simpl in Hy. destruct (mapM (body (Path.join root iter_nm)) subs) as [ls2|] eqn:Hm2;
    [|done].
  simpl in Hy. injection Hy as <-.
  destruct (mapM_concat_In _ _ _ _ Hm2 Hcy) as (sb & zs & Hsb & Hz & Hcz).
  destruct (In_iter_dirs _ _ _ _ _ Hs Hsb) as [Hd2 [sub_nm ->]].
  exists iter_nm, sub_nm, zs. done.
Qed.

(** X11.  Every candidate [crawl_geneval_candidates] returns stands for
    the first [.jpg] of a directory [root/ITER/generation/SUB/samples],
    [ITER] and [SUB] being directories, and records that image, the two
    directory names, the destination [images/geneval/ITER/SUB], the ranks
    parsed from the names with -1 for a name that is no integer, the
    prompt of the metadata file beside the image and the identifier
    [geneval-ITER-SUB-STEM]. *)
Theorem crawl_geneval_candidates_describe fs root images_out mdl li cands c :
  crawl_geneval_candidates fs root images_out mdl li = Some cands ->
  In c cands ->
  exists iter_nm sub_nm,
    let iter := Path.join root iter_nm in
    let sub := Path.join (Path.join iter "generation") sub_nm in
    FS.isdir fs iter = true /\ FS.isdir fs sub = true
    /\ first_jpg fs (Path.join sub "samples") = Some (src c)
    /\ describes fs images_out mdl "geneval" iter sub (src c) c.
Proof.
  intros H Hc. destruct (crawl_inv _ _ _ _ _ _ H Hc)
    as (iter_nm & sub_nm & cs & Hd1 & Hd2 & Hsub & Hcs).
  exists iter_nm, sub_nm. unfold geneval_sub in Hsub.
  destruct (FS.exists_ fs _); [|injection Hsub as <-; done].
  destruct (leaf_candidate_inv _ _ _ _ _ _ _ _ _ Hsub Hcs) as (_ & ? & ?). done.
Qed.

Lemma crawl_geneval_candidates_describe_witness :
  exists iter_nm sub_nm,
    let iter := Path.join ["g"] iter_nm in
    let sub := Path.join (Path.join iter "generation") sub_nm in
    FS.isdir Demo.disk iter = true /\ FS.isdir Demo.disk sub = true
    /\ first_jpg Demo.disk (Path.join sub "samples") = Some (src demo_geneval_picture)
    /\ describes Demo.disk DemoRuns.images "m" "geneval" iter sub
         (src demo_geneval_picture) demo_geneval_picture.
Proof.
  apply (crawl_geneval_candidates_describe Demo.disk ["g"] DemoRuns.images "m" None
           (default [] (crawl_geneval_candidates Demo.disk ["g"] DemoRuns.images "m" None))).
  - apply some_default; vm_compute; reflexivity.
  - vm_compute. right; left; reflexivity.
Defined.

(** X12.  Every candidate [crawl_dpg_candidates] returns stands for the
    first [.jpg] of a directory [root/ITER/generation/SUB], [ITER] and
    [SUB] being directories, and records it in the same way under the
    benchmark [dpg]. *)
Theorem crawl_dpg_candidates_describe fs root images_out mdl li cands c :
  crawl_dpg_candidates fs root images_out mdl li = Some cands ->
  In c cands ->
  exists iter_nm sub_nm,
    let iter := Path.join root iter_nm in
    let sub := Path.join (Path.join iter "generation") sub_nm in
    FS.isdir fs iter = true /\ FS.isdir fs sub = true
    /\ first_jpg fs sub = Some (src c)
    /\ describes fs images_out mdl "dpg" iter sub (src c) c.
Proof.
  intros H Hc. destruct (crawl_inv _ _ _ _ _ _ H Hc)
    as (iter_nm & sub_nm & cs & Hd1 & Hd2 & Hsub & Hcs).
  exists iter_nm, sub_nm. unfold dpg_sub in Hsub.
  destruct (leaf_candidate_inv _ _ _ _ _ _ _ _ _ Hsub Hcs) as (_ & ? & ?). done.
Qed.

Lemma crawl_dpg_candidates_describe_witness :
  exists iter_nm sub_nm,
    let iter := Path.join ["d"] iter_nm in
    let sub := Path.join (Path.join iter "generation") sub_nm in
    FS.isdir Demo.disk iter = true /\ FS.isdir Demo.disk sub = true
    /\ first_jpg Demo.disk sub = Some (src demo_dpg_picture)
    /\ describes Demo.disk DemoRuns.images "m" "dpg" iter sub
         (src demo_dpg_picture) demo_dpg_picture.
Proof.
  apply (crawl_dpg_candidates_describe Demo.disk ["d"] DemoRuns.images "m" None
           (default [] (crawl_dpg_candidates Demo.disk ["d"] DemoRuns.images "m" None))).
  - apply some_default; vm_compute; reflexivity.
  - vm_compute. left; reflexivity.
Defined.

(** X9.  A source root that is not a directory makes either crawler
    raise, and with it the whole run: the root is not skipped. *)
Theorem crawl_root_not_a_directory env a fs fs1 root :
  FS.exists_ fs (Path.join (site_dir a) "index.html") = true ->
  FS.mkdir_p env fs (Path.join (site_dir a) "images") = Some fs1 ->
  FS.isdir fs1 root = false ->
  geneval_root a = Some root \/ dpg_root a = Some root ->
  (forall images_out mdl li,
     crawl_geneval_candidates fs1 root images_out mdl li = None
     /\ crawl_dpg_candidates fs1 root images_out mdl li = None)
  /\ main env a fs = None.
Proof.
  intros Hidx Hmk Hd Hroot.
  assert (Hc : forall body li, crawl fs1 body root li = None).
  { intros body li. unfold crawl.
    by rewrite (proj2 (iter_dirs_raises fs1 root true) Hd). }
  split; [by split; apply Hc|].
  unfold main. rewrite Hidx. simpl. rewrite Hmk. simpl.
  unfold discover, crawl_geneval_candidates, crawl_dpg_candidates.
  destruct Hroot as [->| ->]; [by rewrite Hc|].
  rewrite Hc. by destruct (geneval_root a) as [r|]; [destruct (crawl _ _ r _)|].
Qed.

Lemma crawl_root_not_a_directory_witness :
  main Demo.env (with_geneval_root ["nowhere"] Demo.cmd) Demo.disk = None.
Proof.
  apply (crawl_root_not_a_directory Demo.env (with_geneval_root ["nowhere"] Demo.cmd)
           Demo.disk DemoRuns.prepared ["nowhere"]).
  - vm_compute; reflexivity.
  - apply some_default; vm_compute; reflexivity.
  - vm_compute; reflexivity.
  - left; reflexivity.
Defined.

End Crawlers.

(** ** Copying into the site *)

Section Copying.
Implicit Types (fs : fsys) (p q source dst_d site : path) (e s d : entry).

Lemma prefixes_length p q : In q (Path.prefixes p) -> (length q <= length p)%nat.
Proof.
  revert q. induction p as [|c p IH]; simpl; intros q.
  - intros [<-|[]]. done.
  - intros [<-|H]; [simpl; lia|].
    apply in_map_iff in H as (q' & <- & H). apply IH in H. simpl. lia.
Qed.

Lemma prefixes_self p : In p (Path.prefixes p).
Proof.
  induction p as [|c p IH]; simpl; [by left|]. right. apply in_map_iff. eauto.
Qed.

Lemma prefixes_prefix p q : In q (Path.prefixes p) -> q `prefix_of` p.
Proof.
  revert q. induction p as [|c p IH]; simpl; intros q.
  - intros [<-|[]]. done.
  - intros [<-|H]; [apply prefix_nil|].
    apply in_map_iff in H as (q' & <- & H). by apply prefix_cons, IH.
Qed.

Lemma relative_to_spec p root r : Path.relative_to p root = Some r <-> p = root ++ r.
Proof.
  revert p. induction root as [|c root IH]; intros p; simpl.
  - destruct p; simpl; split; congruence.
  - destruct p as [|c' p]; simpl; [split; done|].
    destruct (String.eqb c c') eqn:E;
      [apply String.eqb_eq in E as ->|apply String.eqb_neq in E].
    + rewrite IH. split; [by intros ->|by intros [= ->]].
    + split; [done|]. intros [= ? ?]. done.
Qed.

Lemma dst_not_prefix dst_d nm : ~ In (Path.join dst_d nm) (Path.prefixes dst_d).
Proof.
  intros H%prefixes_length. unfold Path.join in H. rewrite length_app in H.
  simpl in H. lia.
Qed.

Lemma kept_file e e' : kept e e' -> is_dir e = false -> e' = e.
Proof. unfold kept. intros H He. by rewrite He in H. Qed.

Lemma kept_dir e e' : kept e e' -> is_dir e = true -> is_dir e' = true.
Proof. unfold kept. intros H He. by rewrite He in H. Qed.

Lemma kept_kind e e' : kept e e' -> is_dir e' = is_dir e.
Proof. unfold kept. destruct (is_dir e) eqn:E; [done|]. by intros ->. Qed.

(** What [shutil.copy2] does when no directory is in the way. *)
Lemma copy2_inv env fs source dst fs' :
  FS.isdir fs dst = false -> FS.copy2 env fs source dst = Some fs' ->
  exists s, fs !! source = Some s /\ is_dir s = false /\ dst <> source
    /\ fs' = FS.put env fs dst (Entry false (st_mtime s) (st_size s) (content s)).
Proof.
  intros Hnd. unfold FS.copy2. rewrite Hnd.
  destruct (fs !! source) as [s|]; [|done].
  destruct (is_dir s) eqn:Eds; [done|].
  destruct (bool_decide (dst = source)) eqn:Eq; [done|].
  apply bool_decide_eq_false in Eq. rewrite Hnd.
  destruct (FS.isdir fs (Path.parent dst)); [|done].
  intros [= <-]. exists s. done.
Qed.

(** What a call of [copy_to_site] that returns has done, when no
    directory is in the way at the destination. *)
Lemma copy_to_site_inv env fs source dst_d site fs' rel copied :
  FS.isdir fs (Path.join dst_d (Path.name source)) = false ->
  copy_to_site env fs source dst_d site = Some (fs', rel, copied) ->
  exists fs1 s r,
    FS.mkdir_p env fs dst_d = Some fs1
    /\ fs1 !! source = Some s
    /\ Path.relative_to (Path.join dst_d (Path.name source)) site = Some r
    /\ rel = slashes (Path.to_string r)
    /\ FS.isdir fs1 (Path.join dst_d (Path.name source)) = false
    /\ ((copied = true /\ is_dir s = false
         /\ Path.join dst_d (Path.name source) <> source
         /\ fs' = FS.put env fs1 (Path.join dst_d (Path.name source))
                    (Entry false (st_mtime s) (st_size s) (content s)))
        \/ (copied = false /\ fs' = fs1
            /\ exists d, fs1 !! Path.join dst_d (Path.name source) = Some d
                 /\ st_mtime s <= st_mtime d /\ st_size s = st_size d)).
Proof.
  unfold copy_to_site. intros Hnd H.
  destruct (FS.mkdir_p env fs dst_d) as [fs1|] eqn:E1; [|done]. simpl in H.
  set (dst := Path.join dst_d (Path.name source)) in *.
  assert (Hnd1 : FS.isdir fs1 dst = false).
  { destruct (make_dirs_other _ _ _ _ dst E1 (dst_not_prefix _ _)) as [-> _]. done. }
  unfold FS.exists_, FS.stat in H.
  destruct (fs1 !! dst) as [d|] eqn:Ed; simpl in H.
  - destruct (fs1 !! source) as [s|] eqn:Es; [|done]. simpl in H.
    destruct ((st_mtime d <? st_mtime s) || negb (st_size s =? st_size d)) eqn:Est.
    + destruct (FS.copy2 env fs1 source dst) as [fs2|] eqn:E2; [|done].
      simpl in H.
      destruct (copy2_inv _ _ _ _ _ Hnd1 E2) as (s' & Hs' & Hds & Hneq & ->).
      rewrite Es in Hs'. injection Hs' as <-.
      destruct (Path.relative_to dst site) as [r|] eqn:Er; [|done]. simpl in H.
      injection H as <- <- <-. exists fs1, s, r. repeat split; try done. by left.
    + simpl in H.
      destruct (Path.relative_to dst site) as [r|] eqn:Er; [|done]. simpl in H.
      injection H as <- <- <-. exists fs1, s, r. repeat split; try done.
      right. repeat split; try done. exists d.
      apply orb_false_iff in Est as [H1 H2]. apply negb_false_iff in H2.
      apply Z.ltb_ge in H1. apply Z.eqb_eq in H2. done.
  - destruct (FS.copy2 env fs1 source dst) as [fs2|] eqn:E2; [|done].
    simpl in H.
    destruct (copy2_inv _ _ _ _ _ Hnd1 E2) as (s & Hs & Hds & Hneq & ->).
    destruct (Path.relative_to dst site) as [r|] eqn:Er; [|done]. simpl in H.
    injection H as <- <- <-. exists fs1, s, r. repeat split; try done. by left.
Qed.

(** The same in terms of the states before and after: the copy at the
    destination, the directories down to it, what is kept and what is
    new. *)
Lemma copy_to_site_effect env fs source dst_d site fs' rel copied :
  FS.isdir fs (Path.join dst_d (Path.name source)) = false ->
  copy_to_site env fs source dst_d site = Some (fs', rel, copied) ->
  (exists s d,
     fs' !! source = Some s /\ fs' !! Path.join dst_d (Path.name source) = Some d
     /\ is_dir d = false /\ st_size s = st_size d /\ st_mtime s <= st_mtime d
     /\ (copied = true ->
         is_dir s = false /\ d = Entry false (st_mtime s) (st_size s) (content s))
     /\ (copied = false -> fs !! Path.join dst_d (Path.name source) = Some d))
  /\ (forall q, In q (Path.prefixes dst_d) -> FS.isdir fs' q = true)
  /\ (forall p e, fs !! p = Some e -> p <> Path.join dst_d (Path.name source) ->
        exists e', fs' !! p = Some e' /\ kept e e')
  /\ (forall p e', fs' !! p = Some e' -> p <> Path.join dst_d (Path.name source) ->
        (exists e, fs !! p = Some e /\ kept e e')
        \/ (fs !! p = None /\ In p (Path.prefixes dst_d) /\ is_dir e' = true))
  /\ exists r, Path.relative_to (Path.join dst_d (Path.name source)) site = Some r
       /\ rel = slashes (Path.to_string r).
Proof.
  intros Hnd H.
  destruct (copy_to_site_inv _ _ _ _ _ _ _ _ Hnd H)
    as (fs1 & s & r & Hmk & Hs1 & Hr & -> & Hnd1 & Hcase).
  set (dst := Path.join dst_d (Path.name source)) in *.
  destruct Hcase as [(-> & Hds & Hneq & ->)|(-> & -> & d & Hd & Hm & Hsz)].
  - set (new := Entry false (st_mtime s) (st_size s) (content s)).
    split; [|split; [|split; [|split]]].
    + exists s, new.
      destruct (put_kept env fs1 dst new source s (not_eq_sym Hneq) Hs1)
        as (s' & Hs' & K).
      apply kept_file in K; [|done]. subst s'.
      rewrite put_eq. repeat split; try done; simpl; lia.
    + intros q Hq. pose proof (make_dirs_made _ _ _ _ _ Hmk Hq) as Hq1.
      unfold FS.isdir in *. destruct (fs1 !! q) as [e|] eqn:E; [|done].
      assert (Hqd : q <> dst) by (intros ->; by apply dst_not_prefix in Hq).
      destruct (put_kept env fs1 dst new q e Hqd E) as (e' & -> & K).
      by apply (kept_dir _ _ K).
    + intros p e Hp Hpd.
      destruct (make_dirs_kept _ _ _ _ _ _ Hmk Hp) as (e1 & H1 & K1).
      destruct (put_kept env fs1 dst new p e1 Hpd H1) as (e2 & H2 & K2).
      exists e2. split; [done|]. by eapply kept_trans.
    + intros p e' Hp Hpd.
      apply put_back in Hp as (e1 & H1 & K1); [|done].
      destruct (make_dirs_back _ _ _ _ _ _ Hmk H1) as [(e0 & H0 & K0)|(H0 & Hin & Hdir)].
      * left. exists e0. split; [done|]. by eapply kept_trans.
      * right. repeat split; try done. by apply (kept_dir _ _ K1).
    + exists r. done.
  - assert (Hdf : is_dir d = false)
      by (unfold FS.isdir in Hnd1; by rewrite Hd in Hnd1).
    split; [|split; [|split; [|split]]].
    + exists s, d. repeat split; try done.
      intros _. by apply (make_dirs_file _ _ _ _ dst d Hmk Hdf).
    + intros q Hq. by apply (make_dirs_made _ _ _ _ _ Hmk).
    + intros p e Hp _. by apply (make_dirs_kept _ _ _ _ _ _ Hmk).
    + intros p e' Hp _. by apply (make_dirs_back _ _ _ _ _ _ Hmk).
    + exists r. done.
Qed.

(** X13.  After [copy_to_site] has returned for a source that is a
    regular file, with no directory in the way at the destination, the
    site holds a regular file of the source's name under [dst_dir] that
    has the source's size and is not older than the source; when the copy
    ran it has the source's time stamp and content.  The source and
    every other regular file are kept as they were, every directory is
    still a directory, [dst_dir] is one, and nothing new appears besides
    that file and directories.  The returned string is the destination
    relative to the site root, written with slashes, a dot when the
    destination is the site root itself. *)
Theorem copy_to_site_result env fs source dst_d site fs' rel copied s :
  FS.isdir fs (Path.join dst_d (Path.name source)) = false ->
  fs !! source = Some s ->
  is_dir s = false ->
  copy_to_site env fs source dst_d site = Some (fs', rel, copied) ->
  (exists d, fs' !! Path.join dst_d (Path.name source) = Some d
     /\ is_dir d = false /\ st_size d = st_size s /\ st_mtime s <= st_mtime d
     /\ (copied = true -> d = Entry false (st_mtime s) (st_size s) (content s))
     /\ (copied = false -> fs !! Path.join dst_d (Path.name source) = Some d))
  /\ fs' !! source = Some s
  /\ FS.isdir fs' dst_d = true
  /\ (forall p e, fs !! p = Some e -> p <> Path.join dst_d (Path.name source) ->
        exists e', fs' !! p = Some e' /\ kept e e')
  /\ (forall p e, fs' !! p = Some e -> fs !! p = None ->
        p = Path.join dst_d (Path.name source) \/ is_dir e = true)
  /\ exists r, Path.join dst_d (Path.name source) = site ++ r
       /\ rel = slashes (match r with [] => "." | _ :: _ => String.concat "/" r end).
Proof.
  intros Hnd Hs Hfile H.
  destruct (copy_to_site_effect _ _ _ _ _ _ _ _ Hnd H)
    as ((s' & d & Hs' & Hd & Hdf & Hsz & Hm & Hc1 & Hc2) & Hdirs & Hkept & Hback
        & r & Hr & ->).
  set (dst := Path.join dst_d (Path.name source)) in *.
  assert (Hsrc : fs' !! source = Some s).
  { destruct (decide (source = dst)) as [E|Hne].
    - destruct copied.
      + exfalso.
        destruct (copy_to_site_inv _ _ _ _ _ _ _ _ Hnd H)
          as (? & ? & ? & _ & _ & _ & _ & _ & [(_ & _ & Hneq & _)|(? & _)]); [|done].
        by apply Hneq.
      + pose proof (Hc2 eq_refl) as Hd0. rewrite <- E in Hd0.
        rewrite Hs in Hd0. injection Hd0 as <-. rewrite E. exact Hd.
    - destruct (Hkept _ _ Hs Hne) as (e' & He' & K).
      apply kept_file in K; [|done]. by subst. }
  rewrite Hsrc in Hs'. injection Hs' as <-.
  split; [|split; [done|split; [|split; [done|split]]]].
  - exists d. repeat split; try done. intros Hc. by destruct (Hc1 Hc).
  - apply Hdirs, prefixes_self.
  - intros p e Hp Hnone. destruct (decide (p = dst)) as [|Hne]; [by left|].
    destruct (Hback _ _ Hp Hne) as [(e0 & H0 & _)|(_ & _ & ?)]; [congruence|by right].
  - exists r. split; [by apply relative_to_spec|]. by destruct r.
Qed.

Lemma some_default3 {A B C} (o : option (A * B * C)) x :
  is_some o = true -> o = Some ((default x o).1.1, (default x o).1.2, (default x o).2).
Proof. destruct o as [[[a b] c]|]; [done|discriminate]. Qed.

Lemma copy_to_site_result_witness :
  exists d, demo_copy.1.1 !! dst_of demo_geneval_picture = Some d
    /\ st_size d = 100 /\ 7 <= st_mtime d.
Proof.
  destruct (copy_to_site_result Demo.env Demo.disk (src demo_geneval_picture)
              (dst_dir demo_geneval_picture) ["site"]
              demo_copy.1.1 demo_copy.1.2 demo_copy.2 (Demo.file 7 100))
    as [(d & Hd & _ & Hsz & Hm & _) _].
  - vm_compute; reflexivity.
  - vm_compute; reflexivity.
  - reflexivity.
  - apply some_default3; vm_compute; reflexivity.
  - exists d. auto.
Defined.

Lemma effect_settled env fs source dst_d site fs' rel copied :
  FS.isdir fs (Path.join dst_d (Path.name source)) = false ->
  copy_to_site env fs source dst_d site = Some (fs', rel, copied) ->
  settled fs' site source dst_d rel.
Proof.
  intros Hnd H.
  destruct (copy_to_site_effect _ _ _ _ _ _ _ _ Hnd H)
    as ((s & d & Hs & Hd & Hdf & Hsz & Hm & _) & Hdirs & _ & _ & r & Hr & ->).
  exists s, d, r. done.
Qed.

Lemma settled_again env fs site source dst_d rel :
  settled fs site source dst_d rel ->
  copy_to_site env fs source dst_d site = Some (fs, rel, false).
Proof.
  intros (s & d & r & Hs & Hd & _ & Hm & Hsz & Hdirs & Hr & ->).
  unfold copy_to_site, FS.mkdir_p. rewrite (make_dirs_done _ _ _ Hdirs). simpl.
  rewrite Hr. unfold FS.exists_, FS.stat. rewrite Hd, Hs. simpl.
  replace (st_mtime d <? st_mtime s) with false by (symmetry; apply Z.ltb_ge; lia).
  rewrite Hsz, Z.eqb_refl. done.
Qed.

(** X14.  [copy_to_site] is idempotent: a second call with the same
    arguments on the state the first one left, at any later time, copies
    nothing, leaves the state as it is and returns the same string. *)
Theorem copy_to_site_again env env' fs source dst_d site fs' rel copied :
  FS.isdir fs (Path.join dst_d (Path.name source)) = false ->
  copy_to_site env fs source dst_d site = Some (fs', rel, copied) ->
  copy_to_site env' fs' source dst_d site = Some (fs', rel, false).
Proof.
  intros Hnd H. apply settled_again. by eapply effect_settled.
Qed.

Lemma copy_to_site_again_witness :
  copy_to_site demo_later demo_copy.1.1 (src demo_geneval_picture)
    (dst_dir demo_geneval_picture) ["site"]
  = Some (demo_copy.1.1, demo_copy.1.2, false).
Proof.
  apply (copy_to_site_again Demo.env demo_later Demo.disk (src demo_geneval_picture)
           (dst_dir demo_geneval_picture) ["site"]
           demo_copy.1.1 demo_copy.1.2 demo_copy.2).
  - vm_compute; reflexivity.
  - apply some_default3; vm_compute; reflexivity.
Defined.

(** A later copy to another destination leaves a regular file as it
    is. *)
Lemma copy_to_site_keeps_file env fs source dst_d site fs' rel copied p e :
  FS.isdir fs (Path.join dst_d (Path.name source)) = false ->
  copy_to_site env fs source dst_d site = Some (fs', rel, copied) ->
  fs !! p = Some e -> is_dir e = false -> p <> Path.join dst_d (Path.name source) ->
  fs' !! p = Some e.
Proof.
  intros Hnd H Hp He Hne.
  destruct (copy_to_site_effect _ _ _ _ _ _ _ _ Hnd H) as (_ & _ & Hkept & _).
  destruct (Hkept _ _ Hp Hne) as (e' & He' & K).
  apply kept_file in K; [|done]. by subst.
Qed.

Lemma copy_to_site_keeps_settled env fs site source0 dst_d0 rel0
    source dst_d fs' rel copied :
  settled fs site source0 dst_d0 rel0 ->
  FS.isfile fs source0 = true ->
  FS.isdir fs (Path.join dst_d (Path.name source)) = false ->
  Path.join dst_d (Path.name source) <> Path.join dst_d0 (Path.name source0) ->
  Path.join dst_d (Path.name source) <> source0 ->
  copy_to_site env fs source dst_d site = Some (fs', rel, copied) ->
  settled fs' site source0 dst_d0 rel0.
Proof.
  intros (s & d & r & Hs & Hd & Hdf & Hm & Hsz & Hdirs & Hr & ->) Hfile Hnd Hne1 Hne2 H.
  assert (Hsf : is_dir s = false).
  { unfold FS.isfile in Hfile. rewrite Hs in Hfile. by apply negb_true_iff. }
  destruct (copy_to_site_effect _ _ _ _ _ _ _ _ Hnd H) as (_ & _ & Hkept & _).
  exists s, d, r. repeat split; try done.
  - by eapply copy_to_site_keeps_file; eauto.
  - by eapply copy_to_site_keeps_file; eauto.
  - intros q Hq. pose proof (Hdirs q Hq) as Hqd. unfold FS.isdir in *.
    destruct (fs !! q) as [e|] eqn:Eq; [|done].
    assert (Hqn : q <> Path.join dst_d (Path.name source)).
    { intros ->. by rewrite Eq, Hqd in Hnd. }
    destruct (Hkept _ _ Eq Hqn) as (e' & -> & K). by apply (kept_dir _ _ K).
Qed.

Lemma copy_to_site_no_dir env fs source dst_d site fs' rel copied p :
  FS.isdir fs (Path.join dst_d (Path.name source)) = false ->
  FS.isdir fs p = false -> ~ p `prefix_of` dst_d ->
  copy_to_site env fs source dst_d site = Some (fs', rel, copied) ->
  FS.isdir fs' p = false.
Proof.
  intros Hnd Hp Hpre H.
  destruct (copy_to_site_effect _ _ _ _ _ _ _ _ Hnd H)
    as ((s & d & _ & Hd & Hdf & _) & _ & _ & Hback & _).
  unfold FS.isdir in *.
  destruct (decide (p = Path.join dst_d (Path.name source))) as [->|Hne];
    [by rewrite Hd|].
  destruct (fs' !! p) as [e'|] eqn:E'; [|done].
  destruct (Hback _ _ E' Hne) as [(e & He & K)|(_ & Hin & _)].
  - rewrite He in Hp. rewrite (kept_kind _ _ K). done.
  - exfalso. by apply Hpre, prefixes_prefix.
Qed.

Lemma materialize_keeps_settled env site source0 dst_d0 rel0 rest :
  forall fs fs' items flags,
  settled fs site source0 dst_d0 rel0 ->
  FS.isfile fs source0 = true ->
  (forall c', In c' rest ->
     FS.isdir fs (dst_of c') = false
     /\ dst_of c' <> Path.join dst_d0 (Path.name source0) /\ dst_of c' <> source0) ->
  (forall c1 c2, In c1 rest -> In c2 rest -> ~ dst_of c1 `prefix_of` dst_dir c2) ->
  materialize env fs site rest = Some (fs', items, flags) ->
  settled fs' site source0 dst_d0 rel0.
Proof.
  induction rest as [|c' rest IH]; simpl; intros fs fs' items flags Hset Hfile Hall Hpre H.
  - by injection H as <- <- <-.
  - destruct (copy_to_site env fs (src c') (dst_dir c') site)
      as [[[fs1 rel1] st]|] eqn:E1; [|done].
    simpl in H.
    destruct (materialize env fs1 site rest) as [[[fs2 its2] fl2]|] eqn:E2; [|done].
    simpl in H. injection H as <- <- <-.
    destruct (Hall c' (or_introl eq_refl)) as (Hnd & Hn1 & Hn2).
    eapply IH; [| | | |exact E2].
    + eapply copy_to_site_keeps_settled; eauto.
    + unfold FS.isfile in *. destruct (fs !! source0) as [e|] eqn:E; [|done].
      apply negb_true_iff in Hfile.
      by rewrite (copy_to_site_keeps_file _ _ _ _ _ _ _ _ _ e Hnd E1 E Hfile
                    (not_eq_sym Hn2)), Hfile.
    + intros c2 Hc2. destruct (Hall c2 (or_intror Hc2)) as (Hnd2 & ? & ?).
      repeat split; try done.
      eapply copy_to_site_no_dir; [exact Hnd|exact Hnd2| |exact E1]. apply Hpre; auto.
    + intros c1 c2 H1 H2. apply Hpre; auto.
Qed.

(** X15.  The copy loop of [main] is idempotent on candidates whose
    sources are regular files and whose destinations do not collide:
    when the destination files are distinct, none of them is a source, a
    directory at the start or an ancestor of a destination directory, a
    second pass over the same candidates on the state the first pass
    left copies nothing, leaves the state as it is and gives the same
    manifest items. *)
Theorem materialize_again env env' site selected : forall fs fs' items flags,
  (forall c, In c selected -> FS.isfile fs (src c) = true) ->
  List.NoDup (map dst_of selected) ->
  (forall c c', In c selected -> In c' selected -> src c <> dst_of c') ->
  (forall c c', In c selected -> In c' selected -> ~ dst_of c `prefix_of` dst_dir c') ->
  (forall c, In c selected -> FS.isdir fs (dst_of c) = false) ->
  materialize env fs site selected = Some (fs', items, flags) ->
  materialize env' fs' site selected
  = Some (fs', items, map (fun _ => false) selected).
Proof.
  induction selected as [|c rest IH]; simpl;
    intros fs fs' items flags Hfiles Hnd Hsrc Hpre Hdir H.
  - by injection H as <- <- <-.
  - destruct (copy_to_site env fs (src c) (dst_dir c) site)
      as [[[fs1 rel1] st]|] eqn:E1; [|done].
    simpl in H.
    destruct (materialize env fs1 site rest) as [[[fs2 its2] fl2]|] eqn:E2; [|done].
    simpl in H. injection H as <- <- <-.
    apply List.NoDup_cons_iff in Hnd as [Hnin Hnd].
    assert (Hc : FS.isdir fs (dst_of c) = false) by auto.
    assert (Hfiles1 : forall c', c = c' \/ In c' rest -> FS.isfile fs1 (src c') = true).
    { intros c' Hc'. pose proof (Hfiles c' Hc') as Hf. unfold FS.isfile in *.
      destruct (fs !! src c') as [e|] eqn:E; [|done].
      apply negb_true_iff in Hf.
      rewrite (copy_to_site_keeps_file _ _ _ _ _ _ _ _ _ e Hc E1 E Hf); [by rewrite Hf|].
      apply Hsrc; [exact Hc'|by left]. }
    assert (Hdir1 : forall c', In c' rest -> FS.isdir fs1 (dst_of c') = false).
    { intros c' Hc'. eapply copy_to_site_no_dir; [exact Hc| | |exact E1]; auto. }
    assert (Hset : settled fs2 site (src c) (dst_dir c) rel1).
    { eapply materialize_keeps_settled; [| | | |exact E2].
      - by eapply effect_settled.
      - apply Hfiles1. by left.
      - intros c' Hc'. repeat split; auto.
        + intros E. apply Hnin. change (dst_of c' = dst_of c) in E.
          rewrite <- E. by apply in_map.
        + intros E. eapply Hsrc; [| |symmetry; exact E]; auto.
      - auto. }
    rewrite (settled_again env' _ _ _ _ _ Hset). simpl.
    rewrite (IH fs1 fs2 its2 fl2); auto.
Qed.

Lemma materialize_again_witness :
  materialize demo_later demo_copies.1.1 ["site"] demo_pictures
  = Some (demo_copies.1.1, demo_copies.1.2, [false; false]).
Proof.
  apply (materialize_again Demo.env demo_later ["site"] demo_pictures Demo.disk
           demo_copies.1.1 demo_copies.1.2 demo_copies.2).
  - intros c [<-|[<-|[]]]; vm_compute; reflexivity.
  - vm_compute. repeat constructor; simpl; intuition discriminate.
  - intros c c' [<-|[<-|[]]] [<-|[<-|[]]]; vm_compute; discriminate.
  - intros c c' [<-|[<-|[]]] [<-|[<-|[]]]; vm_compute;
      intros [k Hk]; repeat (destruct k; try discriminate).
  - intros c [<-|[<-|[]]]; vm_compute; reflexivity.
  - apply some_default3; vm_compute; reflexivity.
Defined.

(** The condition on the sources is needed.  In the world [clash_disk]
    the first source is a directory of which a copy of equal size and
    later time is in place, and the second candidate is copied into that
    directory; all other conditions hold.  The first pass copies the
    second candidate only, which sets the time stamp of the directory;
    in the second pass the directory is newer than its copy, and
    [shutil.copy2] raises on it. *)
Lemma second_pass_needs_files :
  List.NoDup (map dst_of clash_pictures)
  /\ (forall c c', In c clash_pictures -> In c' clash_pictures -> src c <> dst_of c')
  /\ (forall c c', In c clash_pictures -> In c' clash_pictures ->
        ~ dst_of c `prefix_of` dst_dir c')
  /\ (forall c, In c clash_pictures -> FS.isdir clash_disk (dst_of c) = false)
  /\ materialize Demo.env clash_disk ["s"] clash_pictures
     = Some (clash_copies.1.1, clash_copies.1.2, clash_copies.2)
  /\ clash_copies.2 = [false; true]
  /\ materialize demo_later clash_copies.1.1 ["s"] clash_pictures = None.
Proof.
  split; [|split; [|split; [|split; [|split; [|split]]]]].
  - vm_compute. repeat constructor; simpl; intuition discriminate.
  - intros c c' [<-|[<-|[]]] [<-|[<-|[]]]; vm_compute; discriminate.
  - intros c c' [<-|[<-|[]]] [<-|[<-|[]]]; vm_compute;
      intros [k Hk]; repeat (destruct k; try discriminate).
  - intros c [<-|[<-|[]]]; vm_compute; reflexivity.
  - apply some_default3; vm_compute; reflexivity.
  - vm_compute; reflexivity.
  - vm_compute; reflexivity.
Qed.

End Copying.

(** ** The prompt extractor *)

Section Prompts.
Import PyStr.

Lemma lstrip_lstrip l : lstrip (lstrip l) = lstrip l.
Proof.
  induction l as [|c l IH]; simpl; [done|].
  destruct (is_space c) eqn:E; [done|]. simpl. by rewrite E.
Qed.

Lemma lstrip_app_last l c : is_space c = false -> lstrip (l ++ [c]) = lstrip l ++ [c].
Proof.
  intros H. induction l as [|a l IH]; simpl; [by rewrite H|].
  by destruct (is_space a).
Qed.

Lemma rstrip_keeps_head c l : is_space c = false -> rstrip (c :: l) = c :: rstrip l.
Proof.
  intros H. unfold rstrip. simpl. rewrite lstrip_app_last by done.
  by rewrite rev_app_distr.
Qed.

Lemma rstrip_rstrip l : rstrip (rstrip l) = rstrip l.
Proof. unfold rstrip. by rewrite rev_involutive, lstrip_lstrip. Qed.

Lemma lstrip_shape l :
  lstrip l = [] \/ exists c t, lstrip l = c :: t /\ is_space c = false.
Proof.
  induction l as [|c l IH]; simpl; [by left|].
  destruct (is_space c) eqn:E; [done|]. right. eauto.
Qed.

Lemma strip_chars_again l :
  rstrip (lstrip (rstrip (lstrip l))) = rstrip (lstrip l).
Proof.
  destruct (lstrip_shape l) as [->|(c & t & -> & Hc)]; [done|].
  rewrite rstrip_keeps_head by done. simpl. rewrite Hc.
  rewrite rstrip_keeps_head by done. by rewrite rstrip_rstrip.
Qed.

Lemma strip_strip s : strip (strip s) = strip s.
Proof.
  unfold strip, chars, of_chars. rewrite list_ascii_of_string_of_list_ascii.
  f_equal. apply strip_chars_again.
Qed.

Lemma stripped_text_stripped v t : stripped_text v = Some t -> strip t = t /\ t <> "".
Proof.
  destruct v as [[| | |s| |]|]; simpl; try done.
  destruct (String.eqb_spec (strip s) "") as [|Hne]; [done|].
  intros [= <-]. split; [apply strip_strip|done].
Qed.

Lemma first_value_stripped items : strip (first_value items) = first_value items.
Proof.
  induction items as [|x items IH]; simpl; [done|].
  destruct x; try done.
  destruct (stripped_text _) as [t|] eqn:E; [|done].
  by apply stripped_text_stripped in E as [? _].
Qed.

Lemma first_text_stripped keys fields t :
  first_text keys fields = Some t -> strip t = t /\ t <> "".
Proof.
  induction keys as [|k keys IH]; simpl; [done|].
  destruct (stripped_text _) as [t'|] eqn:E; [|done].
  intros [= <-]. by apply stripped_text_stripped in E.
Qed.

Lemma first_nested_stripped keys sub :
  (forall k p, dict_get k sub = Some (Some p) -> strip p = p) ->
  strip (first_nested keys sub) = first_nested keys sub.
Proof.
  intros H. induction keys as [|k keys IH]; simpl; [done|].
  destruct (dict_get k sub) as [[p|]|] eqn:E; try done.
  destruct (String.eqb p ""); [done|]. eauto.
Qed.

Lemma extract_prompt_obj fields :
  extract_prompt (JObj fields)
  = match first_text prompt_keys fields with
    | Some t => t
    | None => first_nested container_keys (nested_calls fields)
    end.
Proof.
  cbn [extract_prompt]. destruct (first_text prompt_keys fields); [done|].
  f_equal. induction fields as [|[k v] fields IH]; [done|].
  cbn [nested_calls map fst snd]. f_equal. exact IH.
Qed.

Lemma dict_get_In {A} k (d : list (string * A)) v :
  dict_get k d = Some v -> In (k, v) d.
Proof.
  induction d as [|[k' v'] d IH]; simpl; [done|].
  destruct (String.eqb_spec k k') as [->|]; [intros [= ->]; by left|auto].
Qed.

Lemma json_nested_ind (P : json -> Prop) :
  P JNull -> (forall b, P (JBool b)) -> (forall s, P (JNum s)) -> (forall s, P (JStr s)) ->
  (forall l, Forall P l -> P (JList l)) ->
  (forall fields, Forall (fun kv => P kv.2) fields -> P (JObj fields)) ->
  forall j, P j.
Proof.
  intros H1 H2 H3 H4 H5 H6. fix IH 1. intros [|b|s|s|l|fields].
  - exact H1.
  - apply H2.
  - apply H3.
  - apply H4.
  - apply H5. induction l as [|x l IHl]; constructor; [apply IH|exact IHl].
  - apply H6. induction fields as [|[k v] fields IHf]; constructor;
      [apply IH|exact IHf].
Qed.

(** X16.  What [extract_prompt] returns carries no white space at either
    end, whatever the document: stripping it again changes nothing.  A
    document that is neither a list nor a dictionary gives the empty
    string. *)
Theorem extract_prompt_stripped (obj : json) :
  strip (extract_prompt obj) = extract_prompt obj
  /\ (is_container obj = false -> extract_prompt obj = "").
Proof.
  split; [|by destruct obj].
  induction obj as [| | | |l _|fields IH] using json_nested_ind; try done.
  - apply first_value_stripped.
  - rewrite extract_prompt_obj.
    destruct (first_text prompt_keys fields) as [t|] eqn:E.
    + by apply first_text_stripped in E as [? _].
    + apply first_nested_stripped. intros k p Hk.
      apply dict_get_In in Hk. unfold nested_calls in Hk.
      apply in_map_iff in Hk as ([k' v] & [= -> Hv] & Hin). simpl in Hv.
      destruct (is_container v); [|done]. injection Hv as <-.
      rewrite Forall_forall in IH. apply (IH (k, v)). by apply list_elem_of_In.
Qed.

End Prompts.

(** ** The model name *)

Section Models.

Lemma index_of_found x pre rest :
  ~ In x pre -> index_of x (pre ++ x :: rest) = Some (length pre).
Proof.
  induction pre as [|y pre IH]; simpl; intros H.
  - by rewrite String.eqb_refl.
  - destruct (String.eqb_spec x y) as [->|_]; [tauto|].
    rewrite IH by tauto. done.
Qed.

Lemma index_of_missing x l : ~ In x l -> index_of x l = None.
Proof.
  induction l as [|y l IH]; simpl; intros H; [done|].
  destruct (String.eqb_spec x y) as [->|_]; [tauto|].
  rewrite IH by tauto. done.
Qed.

(** X17.  [infer_model] returns the path component that follows the first
    component [UnifyModelEval], whatever model name was given on the
    command line; only when there is no such component, or nothing
    follows it, does it return the given name, and [unknown-model] when
    that name is empty. *)
Theorem infer_model_spec (p : path) (fallback : string) :
  (forall pre m post,
     p = pre ++ "UnifyModelEval" :: m :: post -> ~ In "UnifyModelEval" pre ->
     infer_model p fallback = m)
  /\ (forall pre,
        p = pre ++ ["UnifyModelEval"] -> ~ In "UnifyModelEval" pre ->
        infer_model p fallback = model_fallback fallback)
  /\ (~ In "UnifyModelEval" p -> infer_model p fallback = model_fallback fallback).
Proof.
  assert (Hother : (if String.eqb fallback "" then "unknown-model" else fallback)
                   = model_fallback fallback).
  { unfold model_fallback. destruct (String.eqb_spec fallback ""); by case_decide. }
  unfold infer_model, path. rewrite Hother. repeat split.
  - intros pre m post -> Hpre. rewrite index_of_found by done. cbv beta iota.
    replace (S (length pre)) with (length pre + 1)%nat by lia.
    rewrite lookup_app_r by lia.
    replace (length pre + 1 - length pre)%nat with 1%nat by lia. done.
  - intros pre -> Hpre. rewrite index_of_found by done. cbv beta iota.
    rewrite lookup_ge_None_2; [done|]. rewrite length_app. simpl. lia.
  - intros H. by rewrite index_of_missing.
Qed.

End Models.

(** ** The benchmarks of the manifest *)

Section Benchmarks.

Lemma StronglySorted_distinct {A} (R : A -> A -> Prop) l :
  StronglySorted R l -> List.NoDup l ->
  StronglySorted (fun x y => R x y /\ x <> y) l.
Proof.
  induction 1 as [|x l Hs IH Hall]; intros Hnd; constructor.
  - apply IH. by apply List.NoDup_cons_iff in Hnd as [_ ?].
  - apply List.NoDup_cons_iff in Hnd as [Hx _].
    rewrite List.Forall_forall in *. intros y Hy. split; [auto|].
    intros ->. done.
Qed.

Lemma benchmarks_of_sorted (its : list item) :
  StronglySorted (fun a b => PyStr.ltb a b = true) (benchmarks_of its).
Proof.
  unfold benchmarks_of.
  eapply StronglySorted_weaken;
    [|apply StronglySorted_distinct;
       [apply (py_sort_sorted (fun b : string => b) PyStr.ltb str_ltb_strict_weak)|]].
  - intros x y [Hxy Hne]. unfold in_order, stays_before in Hxy.
    destruct (PyStr.ltb x y) eqn:E; [done|]. exfalso. apply Hne.
    by apply ltb_total.
  - apply py_sort_NoDup, NoDup_ListNoDup, NoDup_remove_dups.
Qed.

Lemma benchmarks_of_In (its : list item) b :
  In b (benchmarks_of its) <-> exists it, In it its /\ item_benchmark it = b.
Proof.
  unfold benchmarks_of.
  rewrite py_sort_In, <- list_elem_of_In, elem_of_remove_dups,
    list_elem_of_In, in_map_iff. split; intros (it & ? & ?); eauto.
Qed.

(** X18.  The benchmark list of the manifest is in strictly ascending
    code-point order, so without repetition, and names exactly the
    benchmarks that occur among the items. *)
Theorem benchmarks_of_spec (its : list item) :
  StronglySorted (fun a b => PyStr.ltb a b = true) (benchmarks_of its)
  /\ forall b, In b (benchmarks_of its) <-> exists it, In it its /\ item_benchmark it = b.
Proof.
  split; [apply benchmarks_of_sorted|]. intros b. apply benchmarks_of_In.
Qed.

End Benchmarks.

(** ** Labels that are no positive numbers *)

Section Sentinel.

Lemma StronglySorted_lookup {A} (R : A -> A -> Prop) l :
  StronglySorted R l ->
  forall (i j : nat) x y, l !! i = Some x -> l !! j = Some y -> (i < j)%nat -> R x y.
Proof.
  induction 1 as [|z l Hs IH Hall]; intros i j x y Hi Hj Hij; [done|].
  destruct j as [|j]; [lia|]. simpl in Hj. destruct i as [|i].
  - injection Hi as <-. rewrite List.Forall_forall in Hall.
    apply Hall, list_elem_of_In. by eapply list_elem_of_lookup_2.
  - simpl in Hi. apply (IH i j); [done|done|lia].
Qed.

Lemma sort_candidates_precedes cands c1 c2 :
  iter_num c2 < iter_num c1 -> precedes c1 c2 (sort_candidates cands).
Proof.
  intros Hlt i j Hi Hj.
  destruct (lt_eq_lt_dec i j) as [[Hij| ->]|Hji]; [done| |].
  - rewrite Hi in Hj. injection Hj as ->. lia.
  - pose proof (StronglySorted_lookup _ _ (sort_candidates_sorted cands)
                  j i c2 c1 Hj Hi Hji) as Hge.
    unfold key_ge, sort_key in Hge. lia.
Qed.

(** X19.  The rank -1 given to a label that is no integer places it
    among the numbers: after the sort, the candidates of an iteration
    directory with a non-negative number come before those of a
    directory whose name is no integer, and these come before the
    candidates of a directory numbered below -1. *)
Theorem sort_candidates_sentinel cands c1 c2 n :
  iter_num c1 = default (-1) (parse_int (iter_dir c1)) ->
  iter_num c2 = default (-1) (parse_int (iter_dir c2)) ->
  parse_int (iter_dir c1) = None ->
  parse_int (iter_dir c2) = Some n ->
  (0 <= n -> precedes c2 c1 (sort_candidates cands))
  /\ (n < -1 -> precedes c1 c2 (sort_candidates cands)).
Proof.
  intros H1 H2 E1 E2. rewrite E1 in H1. rewrite E2 in H2. simpl in H1, H2.
  split; intros Hn; apply sort_candidates_precedes; lia.
Qed.

Lemma sort_candidates_sentinel_witness :
  precedes demo_alpha_picture demo_minus_picture (sort_candidates demo_geneval_found).
Proof.
  apply (sort_candidates_sentinel demo_geneval_found demo_alpha_picture
           demo_minus_picture (-5)).
  - vm_compute; reflexivity.
  - vm_compute; reflexivity.
  - vm_compute; reflexivity.
  - vm_compute; reflexivity.
  - lia.
Defined.

End Sentinel.

(** ** The manifest *)

Section Manifest.

Lemma copy_to_site_rel env fs source dst_d site fs' rel copied :
  copy_to_site env fs source dst_d site = Some (fs', rel, copied) ->
  exists r, Path.join dst_d (Path.name source) = site ++ r
    /\ rel = slashes (Path.to_string r).
Proof.
  unfold copy_to_site. intros H.
  destruct (FS.mkdir_p env fs dst_d) as [fs1|]; [|done]. simpl in H.
  match type of H with
  | context [mbind _ ?m] => destruct m as [st|]; [|done]
  end.
  simpl in H.
  match type of H with
  | context [mbind _ ?m] => destruct m as [fs2|]; [|done]
  end.
  simpl in H.
  destruct (Path.relative_to _ _) as [r|] eqn:Er; [|done]. simpl in H.
  injection H as <- <- <-. exists r. split; [by apply relative_to_spec|done].
Qed.

Lemma make_item_lists site c r :
  dst_of c = site ++ r -> lists site c (make_item c (slashes (Path.to_string r))).
Proof.
  intros Hr. exists r. unfold make_item. cbn [item_id item_benchmark item_dataset
    item_split item_prompt item_image item_reference item_answer item_prediction
    item_model item_tags].
  repeat split; try done.
  destruct (String.eqb_spec (benchmark c) "geneval"); by case_decide.
Qed.

Lemma materialize_lists env site selected : forall fs fs' its flags,
  materialize env fs site selected = Some (fs', its, flags) ->
  Forall2 (lists site) selected its.
Proof.
  induction selected as [|c rest IH]; simpl; intros fs fs' its flags H.
  - injection H as <- <- <-. constructor.
  - destruct (copy_to_site env fs (src c) (dst_dir c) site)
      as [[[fs1 rel] st]|] eqn:E1; [|done].
    simpl in H.
    destruct (materialize env fs1 site rest) as [[[fs2 its2] fl2]|] eqn:E2; [|done].
    simpl in H. injection H as <- <- <-. constructor; [|eauto].
    destruct (copy_to_site_rel _ _ _ _ _ _ _ _ E1) as (r & Hr & ->).
    by apply make_item_lists.
Qed.

Lemma lists_benchmarks site selected its b :
  Forall2 (lists site) selected its ->
  (exists it, In it its /\ item_benchmark it = b)
  <-> exists c, In c selected /\ benchmark c = b.
Proof.
  induction 1 as [|c it selected its Hl _ IH]; simpl.
  - split; intros (? & [] & _).
  - destruct Hl as (r & _ & _ & Hb & _). split.
    + intros (it' & [<-|Hin] & <-); [exists c; auto|].
      destruct (proj1 IH (ex_intro _ it' (conj Hin eq_refl))) as (c' & ? & ?).
      exists c'. auto.
    + intros (c' & [<-|Hin] & <-); [exists it; auto|].
      destruct (proj2 IH (ex_intro _ c' (conj Hin eq_refl))) as (it' & ? & ?).
      exists it'. auto.
Qed.

Lemma item_json_objects its : Forall2 item_object its (map item_json its).
Proof. induction its; constructor; [reflexivity|done]. Qed.

Lemma write_json_lookup env fs p doc fs' :
  FS.write_json env fs p doc = Some fs' ->
  fs' !! p = Some (Entry false (now env) (dumps_size env doc) (Some doc)).
Proof.
  unfold FS.write_json. destruct (FS.isdir fs p); [done|].
  destruct (FS.isdir fs (Path.parent p)); [|done].
  intros [= <-]. apply put_eq.
Qed.

(** X20.  Whenever a run writes a manifest, the file [manifest.json] of
    the site holds, when the run ends, an object with the time of the
    run, the benchmark list and one object for each item.  The items
    stand for the selected candidates, one for one and in the order of
    the selection, each with the candidate's id, its benchmark (also as
    dataset), prompt and model, the tags [iter:ITER] and [count:SUB] (or
    [name:SUB] outside geneval), the destination file relative to the
    site root as image, and blanks in the other fields.  The benchmark
    list is in strictly ascending order and names exactly the benchmarks
    of the selected candidates. *)
Theorem main_manifest env a fs r m :
  main env a fs = Some r ->
  written r = Some m ->
  created_at m = stamp env
  /\ StronglySorted (fun x y => PyStr.ltb x y = true) (benchmarks m)
  /\ (forall b, In b (benchmarks m) <-> exists c, In c (selected r) /\ benchmark c = b)
  /\ Forall2 (lists (site_dir a)) (selected r) (items m)
  /\ exists docs,
       Forall2 item_object (items m) docs
       /\ let doc := JObj [("meta", JObj [("created_at", JStr (stamp env));
                                          ("benchmarks", JList (map JStr (benchmarks m)))]);
                           ("items", JList docs)] in
          fs_after r !! Path.join (site_dir a) "manifest.json"
          = Some (Entry false (now env) (dumps_size env doc) (Some doc)).
Proof.
  intros Hrun Hw.
  destruct (main_cases _ _ _ _ Hrun)
    as [[_ ->]|(Hidx & fs1 & cands & Hmk & Hd & [(-> & fs2 & Hj & ->)|Hne])].
  - done.
  - simpl in Hw. injection Hw as <-. simpl.
    split; [done|]. split; [constructor|]. split; [|split; [constructor|]].
    + intros b. split; [done|]. by intros (? & [] & _).
    + exists []. split; [constructor|]. by apply write_json_lookup in Hj.
  - destruct (main_nonempty _ _ _ _ _ _ Hidx Hmk Hd Hne Hrun) as (Hsel & _ & Hrest).
    destruct (dry_run a).
    + destruct Hrest as (_ & _ & Hnone). congruence.
    + destruct Hrest as (fs2 & its & flags & Hm & _ & Hwr & Hj).
      rewrite Hwr in Hw. injection Hw as <-. simpl. rewrite Hsel.
      pose proof (materialize_lists _ _ _ _ _ _ _ Hm) as Hl.
      split; [done|]. split; [apply benchmarks_of_sorted|].
      split; [|split; [done|]].
      * intros b. rewrite benchmarks_of_In. by apply (lists_benchmarks (site_dir a)).
      * exists (map item_json its). split; [apply item_json_objects|].
        by apply write_json_lookup in Hj.
Qed.

Lemma main_manifest_witness :
  created_at demo_manifest = stamp Demo.env
  /\ Forall2 (lists ["site"]) (selected (DemoRuns.outcome Demo.cmd Demo.disk))
       (items demo_manifest).
Proof.
  destruct (main_manifest Demo.env Demo.cmd Demo.disk
              (DemoRuns.outcome Demo.cmd Demo.disk) demo_manifest)
    as (H1 & _ & _ & H4 & _).
  - apply some_default; vm_compute; reflexivity.
  - apply some_default; vm_compute; reflexivity.
  - split; [exact H1|exact H4].
Defined.

End Manifest.

(** ** Restricting the scan to the latest iterations *)

Section Latest.

Lemma latest_prefix li (iters : list path) : latest li iters `prefix_of` iters.
Proof.
  unfold latest, slice_to. destruct li as [n|]; [|done].
  destruct (0 <? n); [|done].
  destruct (0 <=? n); eexists; symmetry; apply take_drop.
Qed.

Lemma mapM_prefix {A B} (f : A -> option B) l1 l2 ks :
  l1 `prefix_of` l2 -> mapM f l2 = Some ks ->
  exists ks1, mapM f l1 = Some ks1 /\ ks1 `prefix_of` ks.
Proof.
  intros [t ->] H%mapM_Some.
  apply Forall2_app_inv_l in H as (ks1 & ks2 & H1 & _ & ->).
  exists ks1. split; [by apply mapM_Some|by exists ks2].
Qed.

Lemma crawl_prefix fs (body : path -> path -> option (list candidate)) root li all :
  crawl fs body root None = Some all ->
  exists pre, crawl fs body root li = Some pre /\ pre `prefix_of` all.
Proof.
  unfold crawl.
  destruct (iter_dirs_numeric_sorted fs root true) as [iters|]; [|done].
  simpl. destruct (mapM (crawl_iter fs body) iters) as [ks|] eqn:Hm; [|done].
  simpl. intros [= <-].
  destruct (mapM_prefix _ _ _ _ (latest_prefix li iters) Hm) as (ks1 & -> & [t ->]).
  simpl. eexists. split; [done|].
  exists (List.concat t). apply concat_app.
Qed.

Lemma crawl_all fs (body : path -> path -> option (list candidate)) root n :
  n <= 0 -> crawl fs body root (Some n) = crawl fs body root None.
Proof.
  intros H. unfold crawl, latest.
  by replace (0 <? n) with false by (symmetry; apply Z.ltb_ge; lia).
Qed.

(** X21.  With [latest_iters] set, each crawler returns an initial
    segment of what it returns without the restriction, whenever the
    unrestricted crawl returns; a value of zero or below restricts
    nothing. *)
Theorem crawl_latest_iters fs root images_out mdl :
  (forall li all,
     crawl_geneval_candidates fs root images_out mdl None = Some all ->
     exists pre, crawl_geneval_candidates fs root images_out mdl li = Some pre
       /\ pre `prefix_of` all)
  /\ (forall li all,
        crawl_dpg_candidates fs root images_out mdl None = Some all ->
        exists pre, crawl_dpg_candidates fs root images_out mdl li = Some pre
          /\ pre `prefix_of` all)
  /\ (forall n, n <= 0 ->
        crawl_geneval_candidates fs root images_out mdl (Some n)
        = crawl_geneval_candidates fs root images_out mdl None
        /\ crawl_dpg_candidates fs root images_out mdl (Some n)
           = crawl_dpg_candidates fs root images_out mdl None).
Proof.
  unfold crawl_geneval_candidates, crawl_dpg_candidates. repeat split.
  - intros li all. apply crawl_prefix.
  - intros li all. apply crawl_prefix.
  - by apply crawl_all.
  - by apply crawl_all.
Qed.

Lemma crawl_latest_iters_witness :
  exists pre,
    crawl_geneval_candidates Demo.disk ["g"] DemoRuns.images "m" (Some 1) = Some pre
    /\ pre `prefix_of` demo_geneval_found.
Proof.
  apply (proj1 (crawl_latest_iters Demo.disk ["g"] DemoRuns.images "m")).
  unfold demo_geneval_found. apply some_default; vm_compute; reflexivity.
Defined.

End Latest.

(** ** The metadata file beside an image *)

Section Suffixes.
Import PyStr.

Lemma chars_append s t : chars (s +:+ t) = chars s ++ chars t.
Proof. induction s as [|c s IH]; simpl; [done|]. by f_equal. Qed.

Lemma chars_length s : length (chars s) = String.length s.
Proof. induction s as [|c s IH]; simpl; [done|]. by f_equal. Qed.

Lemma string_length_append s t :
  String.length (s +:+ t) = (String.length s + String.length t)%nat.
Proof. induction s as [|c s IH]; simpl; [done|]. by f_equal. Qed.

Lemma substring_none s : substring 0 0 s = "".
Proof. by destruct s. Qed.

Lemma substring_all s : substring 0 (String.length s) s = s.
Proof. induction s as [|c s IH]; simpl; [done|]. by f_equal. Qed.

Lemma substring_prefix s t : substring 0 (String.length s) (s +:+ t) = s.
Proof.
  induction s as [|c s IH]; simpl; [apply substring_none|]. by f_equal.
Qed.

Lemma substring_split s : forall m : nat,
  (m <= String.length s)%nat ->
  s = substring 0 m s +:+ substring m (String.length s - m) s.
Proof.
  induction s as [|c s IH]; intros m Hm; simpl in *.
  - destruct m; [done|lia].
  - destruct m as [|m]; simpl.
    + by rewrite substring_all.
    + change (String c s
              = String c (substring 0 m s +:+ substring m (String.length s - m) s)).
      f_equal. apply IH. lia.
Qed.

Lemma ends_with_split suffix s :
  ends_with suffix s = true -> exists base, s = base +:+ suffix.
Proof.
  unfold ends_with. intros [Hk He]%andb_true_iff.
  apply Nat.leb_le in Hk. apply String.eqb_eq in He.
  set (k := String.length suffix) in *.
  exists (substring 0 (String.length s - k) s). rewrite <- He.
  pose proof (substring_split s (String.length s - k)) as H.
  replace (String.length s - (String.length s - k))%nat with k in H by lia.
  apply H. lia.
Qed.

Lemma rfind_dot_app l1 : forall i l2 found,
  Path.rfind_dot i (l1 ++ l2) found
  = Path.rfind_dot (i + length l1) l2 (Path.rfind_dot i l1 found).
Proof.
  induction l1 as [|c l1 IH]; intros i l2 found; simpl.
  - by rewrite Nat.add_0_r.
  - rewrite IH. by rewrite Nat.add_succ_r.
Qed.

Lemma suffix_start_jpg base :
  Path.suffix_start (base +:+ ".jpg")
  = if String.eqb base "" then None else Some (String.length base).
Proof.
  unfold Path.suffix_start. rewrite chars_append, rfind_dot_app. simpl.
  rewrite chars_length, string_length_append. simpl.
  replace (String.length base <? String.length base + 4 - 1)%nat with true
    by (symmetry; apply Nat.ltb_lt; lia).
  by destruct base.
Qed.

(** X22.  For an image [BASE.jpg] the crawlers read the metadata from
    [BASE.json] in the same directory and end the id with [BASE]; for an
    image named just [.jpg] the whole name is the stem, so the metadata
    file is [.jpg.json] and the id ends with [.jpg]. *)
Theorem jpg_stem_and_metadata (jpg : path) :
  ends_with ".jpg" (Path.name jpg) = true ->
  exists base,
    Path.name jpg = base +:+ ".jpg"
    /\ (base <> "" ->
        Path.stem jpg = base
        /\ Path.with_suffix jpg ".json" = Path.join (Path.parent jpg) (base +:+ ".json"))
    /\ (base = "" ->
        Path.stem jpg = ".jpg"
        /\ Path.with_suffix jpg ".json" = Path.join (Path.parent jpg) ".jpg.json").
Proof.
  intros [base Hb]%ends_with_split. exists base. split; [done|].
  unfold Path.with_suffix, Path.stem. rewrite Hb, suffix_start_jpg.
  split.
  - intros Hne. destruct (String.eqb_spec base "") as [|_]; [done|].
    by rewrite substring_prefix.
  - by intros ->.
Qed.

Lemma jpg_stem_and_metadata_witness :
  exists base,
    Path.name (src demo_geneval_picture) = base +:+ ".jpg"
    /\ (base <> "" ->
        Path.stem (src demo_geneval_picture) = base
        /\ Path.with_suffix (src demo_geneval_picture) ".json"
           = Path.join (Path.parent (src demo_geneval_picture)) (base +:+ ".json"))
    /\ (base = "" ->
        Path.stem (src demo_geneval_picture) = ".jpg"
        /\ Path.with_suffix (src demo_geneval_picture) ".json"
           = Path.join (Path.parent (src demo_geneval_picture)) ".jpg.json").
Proof.
  apply (jpg_stem_and_metadata (src demo_geneval_picture)).
  vm_compute; reflexivity.
Defined.

End Suffixes.
